(** * L51 type checker: user-defined types, subtyping, covers and type-case

    A shallow embedding of [part3/src/L5/L5-typecheck.ts] and the
    properties its specification states about it. *)

From Stdlib Require Import String List Bool Arith ZArith Lia Permutation.
From Stdlib Require Import Sorting.Sorted OrdersEx OrdersFacts.
Import ListNotations.
Open Scope string_scope.
Open Scope list_scope.

Set Implicit Arguments.
Set Warnings "-register-all".

(** ** The result container ([shared/result]) *)

(** Modelled from the spec: the success/failure container of
    [shared/result] with its bind/map/zip combinators; a failure carries
    its message. *)
Inductive Result (T : Type) : Type :=
| Ok (value : T)
| Failure (message : string).

Arguments Ok {T} value.
Arguments Failure {T} message.

Definition makeOk {T} (value : T) : Result T := Ok value.
Definition makeFailure {T} (message : string) : Result T := Failure message.

Definition isOk {T} (r : Result T) : bool :=
  match r with Ok _ => true | Failure _ => false end.

Definition isFailure {T} (r : Result T) : bool :=
  match r with Ok _ => false | Failure _ => true end.

Definition bind {T U} (r : Result T) (f : T -> Result U) : Result U :=
  match r with
  | Ok value => f value
  | Failure message => Failure message
  end.

Definition mapv {T U} (r : Result T) (f : T -> U) : Result U :=
  match r with
  | Ok value => Ok (f value)
  | Failure message => Failure message
  end.

Definition either {T U} (r : Result T) (ifOk : T -> U) (ifFailure : string -> U) : U :=
  match r with
  | Ok value => ifOk value
  | Failure message => ifFailure message
  end.

(** ** Type expressions ([TExp]) *)

(** Modelled from the spec: the type-expression model of [TExp], whose
    declarations are not part of the checker's file: the primitive
    types, procedure types, user-defined types (a name and its
    records), records (a name and its fields) and references by name,
    and the type variables of the primitive signatures.  A record is
    an object of the host heap: the subtype test looks a record up in a
    union with [Array.includes], which compares object references, so
    a record carries the reference [ref] it was allocated at; two
    records with the same reference are the same object.  Structural
    comparison ([equals]) does not see the reference. *)
Inductive TExp : Type :=
| NumTExp
| BoolTExp
| StrTExp
| VoidTExp
| AnyTExp
| LitTExp
| TVar (var : string)
| ProcTExp (paramTEs : list TExp) (returnTE : TExp)
| TUserDefined (ud : UserDefinedTExp)
| TRecord (rec : RecordTExp)
| UserDefinedNameTExp (name : string)
with UserDefinedTExp : Type :=
| makeUserDefinedTExp (name : string) (records : list RecordTExp)
with RecordTExp : Type :=
| makeRecord (ref : nat) (name : string) (fields : list Field)
with Field : Type :=
| makeField (fieldName : string) (te : TExp).

(** The source's [{typeName: string}] bound of [getItemByName]. *)
Class HasTypeName (T : Type) := typeName : T -> string.

#[export] Instance UserDefinedTExp_typeName : HasTypeName UserDefinedTExp :=
  fun ud => match ud with makeUserDefinedTExp n _ => n end.
#[export] Instance RecordTExp_typeName : HasTypeName RecordTExp :=
  fun r => match r with makeRecord _ n _ => n end.

Definition records (ud : UserDefinedTExp) : list RecordTExp :=
  match ud with makeUserDefinedTExp _ rs => rs end.
Definition ref (r : RecordTExp) : nat :=
  match r with makeRecord a _ _ => a end.
Definition fields (r : RecordTExp) : list Field :=
  match r with makeRecord _ _ fs => fs end.
Definition fieldName (f : Field) : string :=
  match f with makeField n _ => n end.
Definition te (f : Field) : TExp :=
  match f with makeField _ t => t end.

Definition makeNumTExp : TExp := NumTExp.
Definition makeBoolTExp : TExp := BoolTExp.
Definition makeStrTExp : TExp := StrTExp.
Definition makeVoidTExp : TExp := VoidTExp.
Definition makeAnyTExp : TExp := AnyTExp.
Definition makeLitTExp : TExp := LitTExp.
Definition makeProcTExp (paramTEs : list TExp) (returnTE : TExp) : TExp :=
  ProcTExp paramTEs returnTE.
Definition makeUserDefinedNameTExp (n : string) : TExp := UserDefinedNameTExp n.

Definition isNumTExp (t : TExp) : bool := match t with NumTExp => true | _ => false end.
Definition isBoolTExp (t : TExp) : bool := match t with BoolTExp => true | _ => false end.
Definition isStrTExp (t : TExp) : bool := match t with StrTExp => true | _ => false end.
Definition isVoidTExp (t : TExp) : bool := match t with VoidTExp => true | _ => false end.
Definition isAnyTExp (t : TExp) : bool := match t with AnyTExp => true | _ => false end.
Definition isProcTExp (t : TExp) : bool := match t with ProcTExp _ _ => true | _ => false end.
Definition isUserDefinedTExp (t : TExp) : bool :=
  match t with TUserDefined _ => true | _ => false end.
Definition isRecord (t : TExp) : bool := match t with TRecord _ => true | _ => false end.
Definition isUserDefinedNameTExp (t : TExp) : bool :=
  match t with UserDefinedNameTExp _ => true | _ => false end.

(** The [tag] property of a type expression object. *)
Definition tag (t : TExp) : string :=
  match t with
  | NumTExp => "NumTExp"
  | BoolTExp => "BoolTExp"
  | StrTExp => "StrTExp"
  | VoidTExp => "VoidTExp"
  | AnyTExp => "AnyTExp"
  | LitTExp => "LitTExp"
  | TVar _ => "TVar"
  | ProcTExp _ _ => "ProcTExp"
  | TUserDefined _ => "UserDefinedTExp"
  | TRecord _ => "Record"
  | UserDefinedNameTExp _ => "UserDefinedNameTExp"
  end.

(** The [typeName] property read off an arbitrary type expression
    (JavaScript property access): absent on the kinds that have none. *)
Definition typeNameOf (t : TExp) : option string :=
  match t with
  | TUserDefined ud => Some (typeName ud)
  | TRecord r => Some (typeName r)
  | UserDefinedNameTExp n => Some n
  | _ => None
  end.

(** *** Structural equality *)

Fixpoint TExp_eq_dec (a b : TExp) {struct a} : {a = b} + {a <> b}
with UserDefinedTExp_eq_dec (a b : UserDefinedTExp) {struct a} : {a = b} + {a <> b}
with RecordTExp_eq_dec (a b : RecordTExp) {struct a} : {a = b} + {a <> b}
with Field_eq_dec (a b : Field) {struct a} : {a = b} + {a <> b}.
Proof.
  - decide equality; try apply string_dec.
    apply list_eq_dec, TExp_eq_dec.
  - decide equality; try apply string_dec.
    apply list_eq_dec, RecordTExp_eq_dec.
  - decide equality; try apply string_dec; try apply Nat.eq_dec.
    apply list_eq_dec, Field_eq_dec.
  - decide equality; try apply string_dec.
Defined.

(** The structure of a type expression: the value with the heap
    references of its records forgotten. *)
Fixpoint structure (t : TExp) : TExp :=
  match t with
  | ProcTExp ps r => ProcTExp (map structure ps) (structure r)
  | TUserDefined ud => TUserDefined (structureUD ud)
  | TRecord r => TRecord (structureRecord r)
  | _ => t
  end
with structureUD (ud : UserDefinedTExp) : UserDefinedTExp :=
  match ud with
  | makeUserDefinedTExp n rs => makeUserDefinedTExp n (map structureRecord rs)
  end
with structureRecord (r : RecordTExp) : RecordTExp :=
  match r with
  | makeRecord _ n fs => makeRecord 0 n (map structureField fs)
  end
with structureField (f : Field) : Field :=
  match f with
  | makeField n t => makeField n (structure t)
  end.

(** Ramda's [equals] on type expressions: deep structural comparison. *)
Definition equals (a b : TExp) : bool :=
  if TExp_eq_dec (structure a) (structure b) then true else false.


(** ** Abstract syntax ([L5-ast]) *)

(** Modelled from the spec: a variable declaration of [L5-ast], a name
    with its declared type. *)
Record VarDecl : Type := makeVarDecl { var : string; texp : TExp }.

(** Modelled from the spec: the expression kinds of [L5-ast] that the
    checker dispatches on, with the field names the checker reads.
    [NumExp] keeps the literal as an integer and [LitExp] keeps the
    quoted datum as its text: the checker reads neither. *)
Inductive Exp : Type :=
| NumExp (val : Z)
| BoolExp (val : bool)
| StrExp (val : string)
| PrimOp (op : string)
| VarRef (v : string)
| IfExp (test then_ alt : Exp)
| ProcExp (args : list VarDecl) (body : list Exp) (returnTE : TExp)
| AppExp (rator : Exp) (rands : list Exp)
| LetExp (bindings : list Binding) (body : list Exp)
| LetrecExp (bindings : list Binding) (body : list Exp)
| DefineExp (vd : VarDecl) (val : Exp)
| SetExp (v : string) (val : Exp)
| LitExp (val : string)
| DefineTypeExp (name : string) (udType : UserDefinedTExp)
| TypeCase (tc : TypeCaseExp)
with Binding : Type :=
| makeBinding (vd : VarDecl) (val : Exp)
with CaseExp : Type :=
| makeCaseExp (name : string) (varDecls : list VarDecl) (body : list Exp)
with TypeCaseExp : Type :=
| makeTypeCaseExp (name : string) (val : Exp) (cases : list CaseExp).

Record Program : Type := makeProgram { exps : list Exp }.

Inductive Parsed : Type :=
| ParsedExp (exp : Exp)
| ParsedProgram (p : Program).

Coercion ParsedExp : Exp >-> Parsed.

#[export] Instance CaseExp_typeName : HasTypeName CaseExp :=
  fun c => match c with makeCaseExp n _ _ => n end.
#[export] Instance TypeCaseExp_typeName : HasTypeName TypeCaseExp :=
  fun tc => match tc with makeTypeCaseExp n _ _ => n end.

Definition varDecls (c : CaseExp) : list VarDecl :=
  match c with makeCaseExp _ vds _ => vds end.
Definition caseBody (c : CaseExp) : list Exp :=
  match c with makeCaseExp _ _ b => b end.
Definition tcVal (tc : TypeCaseExp) : Exp :=
  match tc with makeTypeCaseExp _ v _ => v end.
Definition cases (tc : TypeCaseExp) : list CaseExp :=
  match tc with makeTypeCaseExp _ _ cs => cs end.
Definition bindingVar (b : Binding) : VarDecl :=
  match b with makeBinding vd _ => vd end.
Definition bindingVal (b : Binding) : Exp :=
  match b with makeBinding _ e => e end.

Definition isDefineTypeExp (e : Exp) : bool :=
  match e with DefineTypeExp _ _ => true | _ => false end.
Definition isDefineExp (e : Exp) : bool :=
  match e with DefineExp _ _ => true | _ => false end.
Definition isProcExp (e : Exp) : bool :=
  match e with ProcExp _ _ _ => true | _ => false end.

(** ** Type environments ([TEnv]) *)

(** Modelled from the spec: the persistent chain of frames of [TEnv];
    a frame binds a batch of names to types, lookup walks the frames
    from the most recent to the oldest, takes the first binding of the
    name inside a frame, and fails when the chain is exhausted.  A frame
    with more names than types binds the extra names to the host's
    undefined, on which the checker's next inspection throws; that
    outcome is represented as a failure. *)
Inductive TEnv : Type :=
| makeEmptyTEnv
| makeExtendTEnv (vars : list string) (texps : list TExp) (tenv : TEnv).

Fixpoint applyFrame (vars : list string) (texps : list TExp) (v : string)
  : option (Result TExp) :=
  match vars with
  | [] => None
  | x :: vars' =>
      if String.eqb x v
      then Some (match texps with
                 | t :: _ => makeOk t
                 | [] => makeFailure ("undefined type of " ++ v)%string
                 end)
      else applyFrame vars' (tl texps) v
  end.

Fixpoint applyTEnv (tenv : TEnv) (v : string) : Result TExp :=
  match tenv with
  | makeEmptyTEnv => makeFailure ("Type Variable not found " ++ v)%string
  | makeExtendTEnv vars texps tenv' =>
      match applyFrame vars texps v with
      | Some r => r
      | None => applyTEnv tenv' v
      end
  end.

(** ** Host functions *)

(** What the checker takes from its environment: the parsers and
    unparsers of [L5-ast] and [TExp], the type equivalence of [TExp],
    and the built-ins [String.localeCompare] and [JSON.stringify]. *)
Class Host : Type := {
  parseL51 : string -> Result Program;
  parseTE : string -> Result TExp;
  unparseTExp : TExp -> Result string;
  unparse : Parsed -> Result string;
  equivalentTEs : TExp -> TExp -> bool;
  localeCompare : string -> string -> comparison;
  stringifyResult : Result string -> string;
  stringifyExp : Parsed -> string
}.

(** ** Program introspection *)

Fixpoint iterTypeDefinitions (head : Exp) (tail : list Exp) : list UserDefinedTExp :=
  match tail with
  | [] => match head with DefineTypeExp _ ud => [ud] | _ => [] end
  | first :: rest =>
      match head with
      | DefineTypeExp _ ud => cons ud (iterTypeDefinitions first rest)
      | _ => iterTypeDefinitions first rest
      end
  end.

Definition getTypeDefinitions (p : Program) : list UserDefinedTExp :=
  match exps p with
  | [] => []
  | first :: rest => iterTypeDefinitions first rest
  end.

Fixpoint iterDefinitions (head : Exp) (tail : list Exp) : list (VarDecl * Exp) :=
  match tail with
  | [] => match head with DefineExp vd val => [(vd, val)] | _ => [] end
  | first :: rest =>
      match head with
      | DefineExp vd val => cons (vd, val) (iterDefinitions first rest)
      | _ => iterDefinitions first rest
      end
  end.

Definition getDefinitions (p : Program) : list (VarDecl * Exp) :=
  match exps p with
  | [] => []
  | first :: rest => iterDefinitions first rest
  end.

Definition getRecords (p : Program) : list RecordTExp :=
  concat (map records (getTypeDefinitions p)).

Fixpoint getItemByName {T} `{HasTypeName T} (name : string) (items : list T) : Result T :=
  match items with
  | [] => makeFailure (name ++ " not found")%string
  | first :: rest =>
      if String.eqb (typeName first) name then makeOk first
      else getItemByName name rest
  end.

Definition getUserDefinedTypeByName (name : string) (p : Program) : Result UserDefinedTExp :=
  getItemByName name (getTypeDefinitions p).

Definition getRecordByName (name : string) (p : Program) : Result RecordTExp :=
  getItemByName name (getRecords p).

(** [Array.includes] on strings. *)
Definition includesString (l : list string) (s : string) : bool :=
  existsb (String.eqb s) l.

Definition getRecordParents (name : string) (p : Program) : list UserDefinedTExp :=
  filter (fun ud => includesString (map (fun rec : RecordTExp => typeName rec) (records ud)) name)
         (getTypeDefinitions p).

Definition getTypeByName (name : string) (p : Program) : Result TExp :=
  let ud := getUserDefinedTypeByName name p in
  if isFailure ud then mapv (getRecordByName name p) TRecord
  else mapv ud TUserDefined.

(** ** Ramda's list functions, as the checker uses them *)

(** Membership up to [equals] (Ramda's internal [_includes]). *)
Definition includesEq (x : TExp) (l : list TExp) : bool := existsb (equals x) l.

(** [uniq]: the first occurrence of every element, up to [equals]. *)
Definition uniq (l : list TExp) : list TExp :=
  fold_left (fun acc x => if includesEq x acc then acc else acc ++ [x]) l [].

(** [intersection]: the elements of the shorter list (of the first one
    when the lengths agree) that occur in the other, without duplicates. *)
Definition intersection (list1 list2 : list TExp) : list TExp :=
  if Nat.ltb (length list2) (length list1)
  then uniq (filter (fun x => includesEq x list1) list2)
  else uniq (filter (fun x => includesEq x list2) list1).

Definition reduce {A B} (f : A -> B -> A) (acc : A) (l : list B) : A := fold_left f l acc.

(** [zipWith]: pairwise up to the shorter list. *)
Fixpoint zipWith {A B C} (f : A -> B -> C) (xs : list A) (ys : list B) : list C :=
  match xs, ys with
  | x :: xs', y :: ys' => f x y :: zipWith f xs' ys'
  | _, _ => []
  end.

(** [Array.sort] with a comparison function: a stable sort; an element
    stays before the ones it does not compare greater than. *)
Fixpoint insertSorted {T} (cmp : T -> T -> comparison) (x : T) (l : list T) : list T :=
  match l with
  | [] => [x]
  | y :: l' =>
      match cmp x y with
      | Gt => y :: insertSorted cmp x l'
      | _ => x :: l
      end
  end.

Definition sort {T} (cmp : T -> T -> comparison) (l : list T) : list T :=
  fold_right (insertSorted cmp) [] l.

(** [Array.includes] on record objects: same reference. *)
Definition includesRef (rs : list RecordTExp) (r : RecordTExp) : bool :=
  existsb (fun r' => Nat.eqb (ref r') (ref r)) rs.

Section Checker.

Context {host : Host}.

(** ** Subtype and coverage engine *)

(** Is te1 a subtype of te2? *)
Definition isSubType (te1 te2 : TExp) (p : Program) : bool :=
  if isAnyTExp te2 then true
  else
    let te2TypeExp : option UserDefinedTExp :=
      match te2 with
      | TUserDefined ud => Some ud
      | UserDefinedNameTExp n =>
          either (getUserDefinedTypeByName n p) (fun udt => Some udt) (fun _ => None)
      | _ => None
      end in
    match te2TypeExp with
    | None => false
    | Some udt =>
        match te1 with
        | TRecord r => includesRef (records udt) r
        | UserDefinedNameTExp n =>
            existsb (fun record : RecordTExp => String.eqb (typeName record) n) (records udt)
        | _ => false
        end
    end.

Definition checkDeepEqualType (te1 te2 : TExp) (p : Program) : bool :=
  match te1 with
  | UserDefinedNameTExp n =>
      (isUserDefinedTExp te2 || isRecord te2)
      && isOk (bind (getTypeByName n p)
                    (fun te1' => if equals te1' te2 then makeOk te2
                                 else makeFailure "Incompatible types"))
  | _ => false
  end.

Definition checkEqualType (te1 te2 : TExp) (exp : Parsed) (p : Program) : Result TExp :=
  if equals te1 te2 then makeOk te2
  else if checkDeepEqualType te1 te2 p then makeOk te2
  else if checkDeepEqualType te2 te1 p then makeOk te2
  else if isSubType te1 te2 p then makeOk te2
  else bind (unparseTExp te1) (fun s1 =>
       bind (unparseTExp te2) (fun s2 =>
       bind (unparse exp) (fun s =>
       makeFailure ("Incompatible types: " ++ s1 ++ " and " ++ s2 ++ " in " ++ s)%string))).

(** The parents of a name: itself when it names a type definition; the
    record name followed by the definitions listing it when it names a
    record; nothing otherwise. *)
Definition getParentsOfName (n : string) (p : Program) : list TExp :=
  either (getUserDefinedTypeByName n p)
         (fun ud => [makeUserDefinedNameTExp (typeName ud)])
         (fun _ => either (getRecordByName n p)
                     (fun rec => cons (makeUserDefinedNameTExp (typeName rec))
                                      (map (fun ud : UserDefinedTExp =>
                                              makeUserDefinedNameTExp (typeName ud))
                                           (getRecordParents (typeName rec) p)))
                     (fun _ => [])).

Definition getParentsType (t : TExp) (p : Program) : list TExp :=
  match t with
  | NumTExp | BoolTExp | StrTExp | VoidTExp | AnyTExp => [t]
  | ProcTExp _ _ => [t]
  | TUserDefined _ => [t]
  | TRecord r => getParentsOfName (typeName r) p
  | UserDefinedNameTExp n => getParentsOfName n p
  | _ => []
  end.

(** The types that cover every member of [types].  On an empty [types]
    the source reduces from the first element of an empty list, the
    host's undefined, and its callers' emptiness test throws; the empty
    cover stands for that outcome. *)
Definition coverTypes (types : list TExp) (p : Program) : list TExp :=
  let parentsList := map (fun t => getParentsType t p) types in
  match parentsList with
  | [] => []
  | first :: rest => reduce intersection first rest
  end.

Definition mostSpecificType (types : list TExp) (p : Program) : TExp :=
  reduce (fun min element => if isSubType element min p then element else min)
         makeAnyTExp types.

Definition checkCoverType (types : list TExp) (p : Program) : Result TExp :=
  let cover := coverTypes types p in
  match cover with
  | [] => makeFailure ("No type found to cover "
                       ++ String.concat " " (map (fun t => stringifyResult (unparseTExp t)) types))%string
  | _ => makeOk (mostSpecificType cover p)
  end.

(** ** Initial type environment *)

Definition extendDefineEnv (p : Program) (env : TEnv) : TEnv :=
  let defineNames := map (fun def : VarDecl * Exp => var (fst def)) (getDefinitions p) in
  let defineTypes := map (fun def : VarDecl * Exp => texp (fst def)) (getDefinitions p) in
  makeExtendTEnv defineNames defineTypes env.

Definition extendDefineTypesEnv (p : Program) (env : TEnv) : TEnv :=
  let defineTypes := getTypeDefinitions p in
  let defineTypeNames := map (fun val : UserDefinedTExp => typeName val) defineTypes in
  let typePredName := map (fun n => (n ++ "?")%string) defineTypeNames in
  let typePred := map (fun _ => makeProcTExp [makeAnyTExp] makeBoolTExp) typePredName in
  makeExtendTEnv (defineTypeNames ++ typePredName)
                 (map TUserDefined defineTypes ++ typePred) env.

Definition extendRecordsEnv (p : Program) (env : TEnv) : TEnv :=
  let recordTypes := getRecords p in
  let recordNames := map (fun val : RecordTExp => typeName val) recordTypes in
  let typePredName := map (fun n => (n ++ "?")%string) recordNames in
  let typePred := map (fun _ => makeProcTExp [makeAnyTExp] makeBoolTExp) typePredName in
  let makeNames := map (fun n => ("make-" ++ n)%string) recordNames in
  let makeTypes := map (fun rec => makeProcTExp (map te (fields rec)) (TRecord rec)) recordTypes in
  makeExtendTEnv ((recordNames ++ typePredName) ++ makeNames)
                 ((map TRecord recordTypes ++ typePred) ++ makeTypes) env.

Definition initTEnv (p : Program) : TEnv :=
  extendRecordsEnv p (extendDefineTypesEnv p (extendDefineEnv p makeEmptyTEnv)).

(** ** Well-formedness of user-defined types *)

Definition compareFields (f1 f2 : Field) : bool :=
  String.eqb (fieldName f1) (fieldName f2)
  && String.eqb (tag (te f1)) (tag (te f2))
  && equivalentTEs (te f1) (te f2).

(** Is the declared type of [f] the type definition named [n]? *)
Definition fieldIsType (n : string) (f : Field) : bool :=
  match te f with
  | TUserDefined ud => String.eqb (typeName ud) n
  | _ => false
  end.

(** Is the declared type of [f] a type definition other than [n]? *)
Definition fieldIsOtherType (n : string) (f : Field) : bool :=
  match te f with
  | TUserDefined ud => negb (String.eqb (typeName ud) n)
  | _ => false
  end.

Definition compareRecords (p : Program) : bool :=
  let record := getRecords p in
  forallb (fun r : RecordTExp =>
    forallb (fun r2 : RecordTExp =>
               Nat.eqb (length (fields r)) (length (fields r2))
               && forallb (fun f2 => existsb (fun f => compareFields f f2) (fields r)) (fields r2)
               && forallb (fun f => existsb (fun f2 => compareFields f f2) (fields r2)) (fields r))
            (filter (fun r1 : RecordTExp => String.eqb (typeName r1) (typeName r)) record))
    record.

Definition isLegalRecord (p : Program) : bool :=
  forallb (fun def : UserDefinedTExp =>
             existsb (fun r => forallb (fieldIsOtherType (typeName def)) (fields r)) (records def))
          (filter (fun def : UserDefinedTExp =>
                     existsb (fun r => existsb (fieldIsType (typeName def)) (fields r)) (records def))
                  (getTypeDefinitions p)).

Definition checkUserDefinedTypes (p : Program) : Result bool :=
  if compareRecords p && isLegalRecord p then makeOk true else makeFailure "Invalid UDT".

(** ** Type-case validation *)

(** [records.every((rec, idx) => ... typeCases[idx] ...)], evaluated
    only once the two lists are known to have the same length. *)
Definition alignedClauses (records : list RecordTExp) (typeCases : list CaseExp) : bool :=
  forallb (fun rc : RecordTExp * CaseExp =>
             String.eqb (typeName (fst rc)) (typeName (snd rc))
             && Nat.eqb (length (fields (fst rc))) (length (varDecls (snd rc))))
          (combine records typeCases).

(** [checkTypeCase] sorts [tc.cases] in place: next to its result it
    gives the type-case expression as the call leaves it. *)
Definition checkTypeCase (tc : TypeCaseExp) (p : Program) : Result bool * TypeCaseExp :=
  match checkCoverType (makeUserDefinedNameTExp (typeName tc)
                        :: map (fun c : CaseExp => makeUserDefinedNameTExp (typeName c)) (cases tc)) p with
  | Failure m => (Failure m, tc)
  | Ok udt =>
      match (match typeNameOf udt with
             | Some n => getUserDefinedTypeByName n p
             | None => makeFailure "undefined not found"
             end) with
      | Failure m => (Failure m, tc)
      | Ok udt =>
          let typeCases :=
            sort (fun a b : CaseExp => localeCompare (typeName a) (typeName b)) (cases tc) in
          let records :=
            sort (fun a b : RecordTExp => localeCompare (typeName a) (typeName b)) (records udt) in
          (if Nat.eqb (length records) (length typeCases) && alignedClauses records typeCases
           then makeOk true
           else makeFailure "Invalid type-case",
           makeTypeCaseExp (typeName tc) (tcVal tc) typeCases)
      end
  end.

(** ** Expression typer *)

(** The typer recurses on the expression; the recursion is counted down
    by a budget.  [None] says that the budget ran out before the typer
    returned; [Some r] is the typer's result. *)
Definition Typing (T : Type) : Type := option (Result T).

Definition bindT {T U} (m : Typing T) (f : T -> Typing U) : Typing U :=
  match m with
  | None => None
  | Some (Failure message) => Some (Failure message)
  | Some (Ok value) => f value
  end.

Definition mapvT {T U} (m : Typing T) (f : T -> U) : Typing U :=
  match m with
  | None => None
  | Some r => Some (mapv r f)
  end.

Fixpoint zipWithResult {T1 T2 T3} (f : T1 -> T2 -> Typing T3)
         (xs : list T1) (ys : list T2) : Typing (list T3) :=
  match xs, ys with
  | x :: xs', y :: ys' =>
      bindT (f x y) (fun fxy =>
      bindT (zipWithResult f xs' ys') (fun fxys => Some (makeOk (cons fxy fxys))))
  | _, _ => Some (makeOk [])
  end.

Fixpoint mapResult {T U} (f : T -> Typing U) (l : list T) : Typing (list U) :=
  match l with
  | [] => Some (makeOk [])
  | x :: l' =>
      bindT (f x) (fun fx =>
      bindT (mapResult f l') (fun fxs => Some (makeOk (cons fx fxs))))
  end.

Definition typeofNum (n : Z) : TExp := makeNumTExp.
Definition typeofBool (b : bool) : TExp := makeBoolTExp.
Definition typeofStr (s : string) : TExp := makeStrTExp.

Definition numOpTExp : Result TExp := parseTE "(number * number -> number)".
Definition numCompTExp : Result TExp := parseTE "(number * number -> boolean)".
Definition boolOpTExp : Result TExp := parseTE "(boolean * boolean -> boolean)".

Definition typeofPrim (op : string) : Result TExp :=
  if String.eqb op "+" then numOpTExp
  else if String.eqb op "-" then numOpTExp
  else if String.eqb op "*" then numOpTExp
  else if String.eqb op "/" then numOpTExp
  else if String.eqb op "and" then boolOpTExp
  else if String.eqb op "or" then boolOpTExp
  else if String.eqb op ">" then numCompTExp
  else if String.eqb op "<" then numCompTExp
  else if String.eqb op "=" then numCompTExp
  else if String.eqb op "number?" then parseTE "(T -> boolean)"
  else if String.eqb op "boolean?" then parseTE "(T -> boolean)"
  else if String.eqb op "string?" then parseTE "(T -> boolean)"
  else if String.eqb op "list?" then parseTE "(T -> boolean)"
  else if String.eqb op "pair?" then parseTE "(T -> boolean)"
  else if String.eqb op "symbol?" then parseTE "(T -> boolean)"
  else if String.eqb op "not" then parseTE "(boolean -> boolean)"
  else if String.eqb op "eq?" then parseTE "(T1 * T2 -> boolean)"
  else if String.eqb op "string=?" then parseTE "(T1 * T2 -> boolean)"
  else if String.eqb op "display" then parseTE "(T -> void)"
  else if String.eqb op "newline" then parseTE "(Empty -> void)"
  else makeFailure ("Primitive not yet implemented: " ++ op)%string.

Section Rules.

(** The typer the rules call on sub-expressions. *)
Variable typeofExp : Parsed -> TEnv -> Program -> Typing TExp.

(** The type of a sequence is the type of its last expression.  The
    source requires a non-empty sequence: on an empty one it reads the
    tag of the host's undefined and throws, represented as a failure. *)
Fixpoint typeofExps (exps : list Exp) (tenv : TEnv) (p : Program) : Typing TExp :=
  match exps with
  | [] => Some (makeFailure "typeofExps: empty sequence")
  | first :: rest =>
      match rest with
      | [] => typeofExp first tenv p
      | _ => bindT (typeofExp first tenv p) (fun _ => typeofExps rest tenv p)
      end
  end.

Definition typeofIf (test then_ alt : Exp) (tenv : TEnv) (p : Program) : Typing TExp :=
  let ifExp := IfExp test then_ alt in
  match typeofExp test tenv p, typeofExp then_ tenv p, typeofExp alt tenv p with
  | Some testTE, Some thenTE, Some altTE =>
      let constraint1 := bind testTE (fun testTE => checkEqualType testTE makeBoolTExp ifExp p) in
      let constraint2 := bind thenTE (fun thenTE =>
                         bind altTE (fun altTE => checkCoverType [thenTE; altTE] p)) in
      Some (bind constraint1 (fun _ => constraint2))
  | _, _, _ => None
  end.

Definition typeofProc (args : list VarDecl) (body : list Exp) (returnTE : TExp)
           (tenv : TEnv) (p : Program) : Typing TExp :=
  let proc := ProcExp args body returnTE in
  let argsTEs := map texp args in
  let extTEnv := makeExtendTEnv (map var args) argsTEs tenv in
  let constraint1 := bindT (typeofExps body extTEnv p) (fun body =>
                       Some (checkEqualType body returnTE proc p)) in
  bindT constraint1 (fun returnTE => Some (makeOk (makeProcTExp argsTEs returnTE))).

Definition typeofApp (rator : Exp) (rands : list Exp) (tenv : TEnv) (p : Program)
  : Typing TExp :=
  let app := AppExp rator rands in
  bindT (typeofExp rator tenv p) (fun ratorTE =>
    match ratorTE with
    | ProcTExp paramTEs returnTE =>
        if negb (Nat.eqb (length rands) (length paramTEs))
        then Some (bind (unparse app) (fun exp =>
                     makeFailure ("Wrong parameter numbers passed to proc: " ++ exp)%string))
        else
          let constraints :=
            zipWithResult (fun (rand : Exp) trand =>
                             bindT (typeofExp rand tenv p) (fun typeOfRand =>
                               Some (checkEqualType typeOfRand trand app p)))
                          rands paramTEs in
          mapvT constraints (fun _ => returnTE)
    | _ =>
        Some (bind (unparseTExp ratorTE) (fun rator =>
              bind (unparse app) (fun exp =>
                makeFailure ("Application of non-procedure: " ++ rator ++ " in " ++ exp)%string)))
    end).

Definition typeofLet (bindings : list Binding) (body : list Exp) (tenv : TEnv) (p : Program)
  : Typing TExp :=
  let exp := LetExp bindings body in
  let vars := map (fun b => var (bindingVar b)) bindings in
  let vals := map bindingVal bindings in
  let varTEs := map (fun b => texp (bindingVar b)) bindings in
  let constraints :=
    zipWithResult (fun varTE (val : Exp) =>
                     bindT (typeofExp val tenv p) (fun typeOfVal =>
                       Some (checkEqualType varTE typeOfVal exp p)))
                  varTEs vals in
  bindT constraints (fun _ => typeofExps body (makeExtendTEnv vars varTEs tenv) p).

Definition procArgs (e : Exp) : list VarDecl :=
  match e with ProcExp args _ _ => args | _ => [] end.
Definition procBody (e : Exp) : list Exp :=
  match e with ProcExp _ body _ => body | _ => [] end.
Definition procReturnTE (e : Exp) : TExp :=
  match e with ProcExp _ _ returnTE => returnTE | _ => VoidTExp end.

Definition typeofLetrec (bindings : list Binding) (body : list Exp) (tenv : TEnv) (p : Program)
  : Typing TExp :=
  let exp := LetrecExp bindings body in
  let ps := map (fun b => var (bindingVar b)) bindings in
  let procs := map bindingVal bindings in
  if negb (forallb isProcExp procs)
  then Some (makeFailure ("letrec - only support binding of procedures - "
                          ++ stringifyExp exp)%string)
  else
    let paramss := map procArgs procs in
    let bodies := map procBody procs in
    let tijs := map (fun params => map texp params) paramss in
    let tis := map procReturnTE procs in
    let tenvBody := makeExtendTEnv ps (zipWith makeProcTExp tijs tis) tenv in
    let tenvIs := zipWith (fun params tij => makeExtendTEnv (map var params) tij tenvBody)
                          paramss tijs in
    let types := zipWithResult (fun bodyI tenvI => typeofExps bodyI tenvI p) bodies tenvIs in
    let constraints :=
      bindT types (fun types =>
        zipWithResult (fun typeI ti => Some (checkEqualType typeI ti exp p)) types tis) in
    bindT constraints (fun _ => typeofExps body tenvBody p).

Definition typeofDefine (vd : VarDecl) (val : Exp) (tenv : TEnv) (p : Program) : Typing TExp :=
  let valTEnv := makeExtendTEnv [var vd] [texp vd] tenv in
  let constraint := typeofExp val valTEnv p in
  mapvT constraint (fun _ => makeVoidTExp).

Definition typeofProgram (exp : Program) (tenv : TEnv) (p : Program) : Typing TExp :=
  typeofExps (exps exp) tenv p.

Definition typeofDefineType (name : string) (udType : UserDefinedTExp)
           (_tenv : TEnv) (_p : Program) : Result TExp :=
  bind (checkUserDefinedTypes _p) (fun _ => makeOk makeVoidTExp).

Definition typeofSet (v : string) (val : Exp) (_tenv : TEnv) (_p : Program) : Typing TExp :=
  let exp := SetExp v val in
  let constraints :=
    bindT (typeofExp (VarRef v) _tenv _p) (fun typeOfVar =>
    bindT (typeofExp val _tenv _p) (fun typeOfVal =>
      Some (checkEqualType typeOfVar typeOfVal exp _p))) in
  mapvT constraints (fun _ => makeVoidTExp).

Definition typeofLit (val : string) (_tenv : TEnv) (_p : Program) : Result TExp :=
  makeOk makeLitTExp.

(** The clause bodies are typed over the clause list as
    [checkTypeCase] left it. *)
Definition typeofTypeCase (exp : TypeCaseExp) (tenv : TEnv) (p : Program) : Typing TExp :=
  let userDefinedTE := getTypeByName (typeName exp) p in
  match typeofExp (tcVal exp) tenv p with
  | None => None
  | Some valTE =>
      let constraints : Result bool * TypeCaseExp :=
        match userDefinedTE with
        | Failure m => (Failure m, exp)
        | Ok userDefinedTE =>
            match valTE with
            | Failure m => (Failure m, exp)
            | Ok valTE =>
                match checkEqualType valTE userDefinedTE (TypeCase exp) p with
                | Failure m => (Failure m, exp)
                | Ok _ => checkTypeCase exp p
                end
            end
        end in
      match fst constraints with
      | Failure m => Some (Failure m)
      | Ok _ =>
          bindT (mapResult (fun c : CaseExp =>
                   bindT (Some (getRecordByName (typeName c) p)) (fun rec =>
                     typeofExps (caseBody c)
                                (makeExtendTEnv (map var (varDecls c)) (map te (fields rec)) tenv)
                                p))
                   (cases (snd constraints)))
                (fun casesTypes => Some (checkCoverType casesTypes p))
      end
  end.

End Rules.

(** Compute the type of an expression: one rule per kind. *)
Fixpoint typeofExp (fuel : nat) (exp : Parsed) (tenv : TEnv) (p : Program) : Typing TExp :=
  match fuel with
  | O => None
  | S fuel' =>
      let self := typeofExp fuel' in
      match exp with
      | ParsedProgram q => typeofProgram self q tenv p
      | ParsedExp e =>
          match e with
          | NumExp n => Some (makeOk (typeofNum n))
          | BoolExp b => Some (makeOk (typeofBool b))
          | StrExp s => Some (makeOk (typeofStr s))
          | PrimOp op => Some (typeofPrim op)
          | VarRef v => Some (applyTEnv tenv v)
          | IfExp test then_ alt => typeofIf self test then_ alt tenv p
          | ProcExp args body returnTE => typeofProc self args body returnTE tenv p
          | AppExp rator rands => typeofApp self rator rands tenv p
          | LetExp bindings body => typeofLet self bindings body tenv p
          | LetrecExp bindings body => typeofLetrec self bindings body tenv p
          | DefineExp vd val => typeofDefine self vd val tenv p
          | SetExp v val => typeofSet self v val tenv p
          | LitExp val => Some (typeofLit val tenv p)
          | DefineTypeExp name udType => Some (typeofDefineType name udType tenv p)
          | TypeCase tc => typeofTypeCase self tc tenv p
          end
      end
  end.

(** The entry point: parse, type the whole program, check the type
    definitions again, render the type. *)
Definition L51typeofProgram (fuel : nat) (concreteExp : string) : Typing string :=
  bindT (Some (parseL51 concreteExp)) (fun p =>
  bindT (typeofExp fuel (ParsedProgram p) (initTEnv p) p) (fun t =>
    Some (bind (checkUserDefinedTypes p) (fun b => unparseTExp t)))).

Definition L51typeof (fuel : nat) (concreteExp : string) : Typing string :=
  L51typeofProgram fuel ("(L51 " ++ concreteExp ++ ")")%string.

End Checker.

(** ** A host to run the checker on examples *)

Definition primSignature (s : string) : Result TExp :=
  if String.eqb s "(number * number -> number)" then makeOk (ProcTExp [NumTExp; NumTExp] NumTExp)
  else if String.eqb s "(number * number -> boolean)" then makeOk (ProcTExp [NumTExp; NumTExp] BoolTExp)
  else if String.eqb s "(boolean * boolean -> boolean)" then makeOk (ProcTExp [BoolTExp; BoolTExp] BoolTExp)
  else if String.eqb s "(T -> boolean)" then makeOk (ProcTExp [TVar "T"] BoolTExp)
  else if String.eqb s "(boolean -> boolean)" then makeOk (ProcTExp [BoolTExp] BoolTExp)
  else if String.eqb s "(T1 * T2 -> boolean)" then makeOk (ProcTExp [TVar "T1"; TVar "T2"] BoolTExp)
  else if String.eqb s "(T -> void)" then makeOk (ProcTExp [TVar "T"] VoidTExp)
  else if String.eqb s "(Empty -> void)" then makeOk (ProcTExp [] VoidTExp)
  else makeFailure "unexpected type expression".

(** The example host: its parser yields the program [p] whatever the
    text; it renders a type as its tag and an expression as a
    placeholder; types are equivalent when structurally equal; names
    compare by code unit, which is how the host collation orders names
    written in lower-case ASCII letters. *)
Definition exampleHost (p : Program) : Host := {|
  parseL51 := fun _ => makeOk p;
  parseTE := primSignature;
  unparseTExp := fun t => makeOk (tag t);
  unparse := fun _ => makeOk "<exp>";
  equivalentTEs := equals;
  localeCompare := String_as_OT.compare;
  stringifyResult := fun r => match r with Ok s => s | Failure m => m end;
  stringifyExp := fun _ => "<exp>"
|}.

(** (define-type shape (circle (radius : number)) (square (side : number))) *)
Definition circle : RecordTExp := makeRecord 1 "circle" [makeField "radius" NumTExp].
Definition square : RecordTExp := makeRecord 2 "square" [makeField "side" NumTExp].
Definition shape : UserDefinedTExp := makeUserDefinedTExp "shape" [circle; square].
Definition shapeProgram : Program := makeProgram [DefineTypeExp "shape" shape].

(** (type-case shape s (square (d) 1) (circle (r) 2)) *)
Definition shapeCases : TypeCaseExp :=
  makeTypeCaseExp "shape" (VarRef "s")
    [makeCaseExp "square" [makeVarDecl "d" NumTExp] [NumExp 1];
     makeCaseExp "circle" [makeVarDecl "r" NumTExp] [NumExp 2]].

(** (define (s : shape) (make-circle 3)) after the definition of shape,
    then the type-case above. *)
Definition shapeUse : Program :=
  makeProgram [DefineTypeExp "shape" shape;
               DefineExp (makeVarDecl "s" (UserDefinedNameTExp "shape"))
                         (AppExp (VarRef "make-circle") [NumExp 3]);
               TypeCase shapeCases].

(** (define (x : number) "a"): the value is a string, the declaration says number. *)
Definition defineMismatch : Exp := DefineExp (makeVarDecl "x" NumTExp) (StrExp "a").

(** A recursive type with a base case:
    (define-type tree (node (next : tree)) (leaf (v : number))),
    the field [next] holding the type definition [tree] itself. *)
Definition tree : UserDefinedTExp :=
  makeUserDefinedTExp "tree"
    [makeRecord 1 "node" [makeField "next" (TUserDefined (makeUserDefinedTExp "tree" []))];
     makeRecord 2 "leaf" [makeField "v" NumTExp]].
Definition treeProgram : Program := makeProgram [DefineTypeExp "tree" tree].

(** A recursive type without a base case, as the parser reads it:
    (define-type stream (scons (head : number) (tail : stream))),
    the field [tail] referring to [stream] by name. *)
Definition stream : UserDefinedTExp :=
  makeUserDefinedTExp "stream"
    [makeRecord 1 "scons" [makeField "head" NumTExp;
                           makeField "tail" (UserDefinedNameTExp "stream")]].
Definition streamProgram : Program := makeProgram [DefineTypeExp "stream" stream].

(** The same type with the field [tail] holding the type definition. *)
Definition streamDirect : UserDefinedTExp :=
  makeUserDefinedTExp "stream"
    [makeRecord 1 "scons" [makeField "head" NumTExp;
                           makeField "tail" (TUserDefined (makeUserDefinedTExp "stream" []))]].
Definition streamDirectProgram : Program := makeProgram [DefineTypeExp "stream" streamDirect].

(** Two unions declaring the record r with different fields:
    (define-type a (r (x : number))) (define-type b (r (y : number))). *)
Definition clashProgram : Program :=
  makeProgram
    [DefineTypeExp "a" (makeUserDefinedTExp "a" [makeRecord 1 "r" [makeField "x" NumTExp]]);
     DefineTypeExp "b" (makeUserDefinedTExp "b" [makeRecord 2 "r" [makeField "y" NumTExp]]);
     NumExp 1].
Definition clashText : string :=
  "(L51 (define-type a (r (x : number))) (define-type b (r (y : number))) 1)".

(** A record named like another type definition:
    (define-type u (r (x : number))) (define-type r (q (z : number))),
    and (type-case u v (r (a) 1)). *)
Definition unionU : UserDefinedTExp :=
  makeUserDefinedTExp "u" [makeRecord 1 "r" [makeField "x" NumTExp]].
Definition unionR : UserDefinedTExp :=
  makeUserDefinedTExp "r" [makeRecord 2 "q" [makeField "z" NumTExp]].
Definition shadowProgram : Program :=
  makeProgram [DefineTypeExp "u" unionU; DefineTypeExp "r" unionR].
Definition shadowCases : TypeCaseExp :=
  makeTypeCaseExp "u" (VarRef "v") [makeCaseExp "r" [makeVarDecl "a" NumTExp] [NumExp 1]].

(** A union declaring the record r twice, with one and with two fields,
    and a type-case with a clause for each, the two-variable one first. *)
Definition twiceR : UserDefinedTExp :=
  makeUserDefinedTExp "w"
    [makeRecord 1 "r" [makeField "x" NumTExp];
     makeRecord 2 "r" [makeField "x" NumTExp; makeField "y" NumTExp]].
Definition twiceProgram : Program := makeProgram [DefineTypeExp "w" twiceR].
Definition twiceCases : TypeCaseExp :=
  makeTypeCaseExp "w" (VarRef "v")
    [makeCaseExp "r" [makeVarDecl "a" NumTExp; makeVarDecl "b" NumTExp] [NumExp 2];
     makeCaseExp "r" [makeVarDecl "a" NumTExp] [NumExp 1]].

(** A type-case on shape with a clause for a record of another union. *)
Definition foreignCases : TypeCaseExp :=
  makeTypeCaseExp "shape" (VarRef "s")
    [makeCaseExp "circle" [makeVarDecl "r" NumTExp] [NumExp 1];
     makeCaseExp "square" [makeVarDecl "d" NumTExp] [NumExp 2];
     makeCaseExp "q" [makeVarDecl "z" NumTExp] [NumExp 3]].
Definition foreignProgram : Program :=
  makeProgram [DefineTypeExp "shape" shape; DefineTypeExp "r" unionR].

(** The environment c : circle, s : shape over the initial environment
    of the shape program. *)
Definition setEnv : TEnv :=
  makeExtendTEnv ["c"; "s"] [UserDefinedNameTExp "circle"; UserDefinedNameTExp "shape"]
                 (initTEnv shapeProgram).

(** A type-case naming only the record circle of shape. *)
Definition circleOnly : TypeCaseExp :=
  makeTypeCaseExp "shape" (VarRef "s")
    [makeCaseExp "circle" [makeVarDecl "r" NumTExp] [NumExp 2]].


(** ** Vocabulary of the properties *)

(** [t] stands for [target]: it is that value, or a name that the
    program resolves to it. *)
Definition denotes (p : Program) (t target : TExp) : Prop :=
  t = target \/ exists n, t = UserDefinedNameTExp n /\ getTypeByName n p = Ok target.

(** Two lists hold the same types, up to [equals]. *)
Definition sameSet (l1 l2 : list TExp) : Prop :=
  forall x, includesEq x l1 = includesEq x l2.

(** What a type-case must match: a record's name and field count, a
    clause's name and variable count. *)
Definition recordShape (r : RecordTExp) : string * nat := (typeName r, length (fields r)).
Definition clauseShape (c : CaseExp) : string * nat := (typeName c, length (varDecls c)).

(** The clauses are, in some order, one clause per record of the union
    with as many variables as the record has fields. *)
Definition clausesMatch (u : UserDefinedTExp) (tc : TypeCaseExp) : Prop :=
  Permutation (map recordShape (records u)) (map clauseShape (cases tc)).

(** The typer's call returned. *)
Definition returns {T} (m : Typing T) : Prop := exists r, m = Some r.

(** The order [checkTypeCase] sorts by: [localeCompare] on the names. *)
Definition byName {host : Host} {T} (key : T -> string) (a b : T) : comparison :=
  localeCompare (key a) (key b).
Definition before {host : Host} {T} (key : T -> string) (a b : T) : Prop :=
  byName key a b <> Gt.

(** The two lists [checkTypeCase] aligns. *)
Definition sortedRecords {host : Host} (u : UserDefinedTExp) : list RecordTExp :=
  sort (byName (fun r : RecordTExp => typeName r)) (records u).
Definition sortedCases {host : Host} (tc : TypeCaseExp) : list CaseExp :=
  sort (byName (fun c : CaseExp => typeName c)) (cases tc).

(** The size of an expression bounds the recursion depth of the typer. *)
Fixpoint size (e : Exp) : nat :=
  match e with
  | IfExp test then_ alt => S (size test + size then_ + size alt)
  | ProcExp _ body _ => S (list_sum (map size body))
  | AppExp rator rands => S (size rator + list_sum (map size rands))
  | LetExp bindings body =>
      S (list_sum (map sizeBinding bindings) + list_sum (map size body))
  | LetrecExp bindings body =>
      S (list_sum (map sizeBinding bindings) + list_sum (map size body))
  | DefineExp _ val => S (size val)
  | SetExp _ val => S (S (size val))
  | TypeCase tc => S (sizeTypeCase tc)
  | _ => 1
  end
with sizeBinding (b : Binding) : nat :=
  match b with makeBinding _ val => S (size val) end
with sizeCase (c : CaseExp) : nat :=
  match c with makeCaseExp _ _ body => S (list_sum (map size body)) end
with sizeTypeCase (tc : TypeCaseExp) : nat :=
  match tc with makeTypeCaseExp _ val cs => S (size val + list_sum (map sizeCase cs)) end.

Definition sizeParsed (x : Parsed) : nat :=
  match x with
  | ParsedExp e => size e
  | ParsedProgram q => S (list_sum (map size (exps q)))
  end.

(** ** Vocabulary of the further properties *)

(** The type definition a top-level expression contributes. *)
Definition typeDefinitionOf (e : Exp) : list UserDefinedTExp :=
  match e with DefineTypeExp _ ud => [ud] | _ => [] end.

(** The variable definition a top-level expression contributes. *)
Definition definitionOf (e : Exp) : list (VarDecl * Exp) :=
  match e with DefineExp vd val => [(vd, val)] | _ => [] end.

(** No item of the list has the name [n]. *)
Definition noneNamed {T} `{HasTypeName T} (n : string) (items : list T) : Prop :=
  Forall (fun y => typeName y <> n) items.

(** A target type that is neither Any nor a user-defined type, record
    or name: a primitive type, a procedure type, a type variable. *)
Definition plainTarget (t : TExp) : bool :=
  match t with
  | AnyTExp | TUserDefined _ | TRecord _ | UserDefinedNameTExp _ => false
  | _ => true
  end.

(** A type that can replace a running minimum other than Any in
    [mostSpecificType]: a record or a name. *)
Definition recordOrName (t : TExp) : bool := isRecord t || isUserDefinedNameTExp t.

(** The type definition [v] lists a record named [n]. *)
Definition listsRecord (n : string) (v : UserDefinedTExp) : Prop :=
  In n (map (fun rec : RecordTExp => typeName rec) (records v)).

(** The types the initial environment gives to predicates and to the
    constructor of a record. *)
Definition predicateTExp : TExp := ProcTExp [AnyTExp] BoolTExp.
Definition constructorTExp (r : RecordTExp) : TExp :=
  ProcTExp (map te (fields r)) (TRecord r).

(** The names of the frame of the initial environment that the records
    induce, the most recent one: the record names, their predicates,
    their constructors. *)
Definition recordFrameNames (p : Program) : list string :=
  (map (fun r : RecordTExp => typeName r) (getRecords p)
   ++ map (fun r : RecordTExp => (typeName r ++ "?")%string) (getRecords p))
  ++ map (fun r : RecordTExp => ("make-" ++ typeName r)%string) (getRecords p).

(** The names of the frame that the type definitions induce: their
    names and their predicates. *)
Definition typeFrameNames (p : Program) : list string :=
  map (fun u : UserDefinedTExp => typeName u) (getTypeDefinitions p)
  ++ map (fun u : UserDefinedTExp => (typeName u ++ "?")%string) (getTypeDefinitions p).

(** (define-type shape ...) followed by (define (circle : number) 1)
    and (define (area : (shape -> number)) ...): a global named like a
    record. *)
Definition globalsProgram : Program :=
  makeProgram [DefineTypeExp "shape" shape;
               DefineExp (makeVarDecl "circle" NumTExp) (NumExp 1);
               DefineExp (makeVarDecl "area"
                            (ProcTExp [UserDefinedNameTExp "shape"] NumTExp))
                         (ProcExp [makeVarDecl "s" (UserDefinedNameTExp "shape")]
                                  [NumExp 1] NumTExp)].

(** (if #t 1 2) *)
Definition ifNumbers : Exp := IfExp (BoolExp true) (NumExp 1) (NumExp 2).

(** (lambda ((c : circle)) : shape c) *)
Definition widen : Exp :=
  ProcExp [makeVarDecl "c" (UserDefinedNameTExp "circle")] [VarRef "c"]
          (UserDefinedNameTExp "shape").

(** ((lambda ((s : shape)) : number 1) (make-circle 3)) *)
Definition applyToCircle : Exp :=
  AppExp (ProcExp [makeVarDecl "s" (UserDefinedNameTExp "shape")] [NumExp 1] NumTExp)
         [AppExp (VarRef "make-circle") [NumExp 3]].

(** (let (((s : shape) (make-circle 3))) 1) *)
Definition letShape : Exp :=
  LetExp [makeBinding (makeVarDecl "s" (UserDefinedNameTExp "shape"))
                      (AppExp (VarRef "make-circle") [NumExp 3])]
         [NumExp 1].

(** (letrec ((x 1)) x) *)
Definition letrecNumber : Exp :=
  LetrecExp [makeBinding (makeVarDecl "x" NumTExp) (NumExp 1)] [VarRef "x"].

(** Every result of the typer [f] is a result of the typer [g]. *)
Definition extends (f g : Parsed -> TEnv -> Program -> Typing TExp) : Prop :=
  forall x tenv p r, f x tenv p = Some r -> g x tenv p = Some r.

(** ** Vocabulary of the directional properties *)

(** The record [r] is, as an object, one of the records of [u]: it has
    the reference of a member of the list.  [Array.includes] asks no
    more and no less. *)
Definition sameObjectIn (u : UserDefinedTExp) (r : RecordTExp) : Prop :=
  exists r', In r' (records u) /\ ref r' = ref r.

(** The type expression [t] stands for a case of the union [u]: a
    record value that is one of the record objects of [u], or a name
    that the record list of [u] holds. *)
Definition caseOf (u : UserDefinedTExp) (t : TExp) : Prop :=
  match t with
  | TRecord r => sameObjectIn u r
  | UserDefinedNameTExp n => listsRecord n u
  | _ => False
  end.

(** The case is given by a name [n] that also names a type definition
    [v] of the program, names resolving to type definitions before
    records, and [v] answers for the union: [v] is structurally equal
    to the union given as a value, or, the union given by name, [n] is
    that very name or [v] lists a record named like the union. *)
Definition nameClash (p : Program) (tU tR : TExp) : Prop :=
  exists n v,
    tR = UserDefinedNameTExp n
    /\ getUserDefinedTypeByName n p = Ok v
    /\ match tU with
       | TUserDefined u => equals (TUserDefined v) (TUserDefined u) = true
       | UserDefinedNameTExp n' => n = n' \/ listsRecord n' v
       | _ => False
       end.

(** Records of [u] that share a name have the same number of fields. *)
Definition sameNameSameArity (u : UserDefinedTExp) : Prop :=
  forall r r', In r (records u) -> In r' (records u) ->
               typeName r = typeName r' -> length (fields r) = length (fields r').

(** [localeCompare] orders the names of the list totally: two of them
    that compare equal are the same name, comparisons are
    antisymmetric and transitive. *)
Definition totalOrderOn {host : Host} (names : list string) : Prop :=
  (forall a b, In a names -> In b names -> localeCompare a b = Eq -> a = b)
  /\ (forall a b, In a names -> In b names ->
                  localeCompare a b = CompOpp (localeCompare b a))
  /\ (forall a b c, In a names -> In b names -> In c names ->
                    localeCompare a b <> Gt -> localeCompare b c <> Gt ->
                    localeCompare a c <> Gt).

(** Two type definitions, each with a record named like the other:
    (define-type u (r (x : number))) (define-type r (u (y : number))). *)
Definition mutualU : UserDefinedTExp :=
  makeUserDefinedTExp "u" [makeRecord 1 "r" [makeField "x" NumTExp]].
Definition mutualR : UserDefinedTExp :=
  makeUserDefinedTExp "r" [makeRecord 2 "u" [makeField "y" NumTExp]].
Definition mutualProgram : Program :=
  makeProgram [DefineTypeExp "u" mutualU; DefineTypeExp "r" mutualR].

(** The environment c : r, s : u over the initial environment of that
    program. *)
Definition mutualEnv : TEnv :=
  makeExtendTEnv ["c"; "s"] [UserDefinedNameTExp "r"; UserDefinedNameTExp "u"]
                 (initTEnv mutualProgram).

(** The record r declared alike in two unions, each declaration a
    record object of its own:
    (define-type a (r (x : number))) (define-type b (r (x : number))). *)
Definition firstR : RecordTExp := makeRecord 1 "r" [makeField "x" NumTExp].
Definition secondR : RecordTExp := makeRecord 2 "r" [makeField "x" NumTExp].
Definition unionA : UserDefinedTExp := makeUserDefinedTExp "a" [firstR].
Definition unionB : UserDefinedTExp := makeUserDefinedTExp "b" [secondR].
Definition twoUnionsProgram : Program :=
  makeProgram [DefineTypeExp "a" unionA; DefineTypeExp "b" unionB].

(** A union declaring the record r twice with the same fields,
    (define-type w (r (x : number)) (r (x : number))), and
    (type-case w v (r (a) 1) (r (b) 2)). *)
Definition alikeR : UserDefinedTExp :=
  makeUserDefinedTExp "w"
    [makeRecord 1 "r" [makeField "x" NumTExp]; makeRecord 2 "r" [makeField "x" NumTExp]].
Definition alikeProgram : Program := makeProgram [DefineTypeExp "w" alikeR].
Definition alikeCases : TypeCaseExp :=
  makeTypeCaseExp "w" (VarRef "v")
    [makeCaseExp "r" [makeVarDecl "a" NumTExp] [NumExp 1];
     makeCaseExp "r" [makeVarDecl "b" NumTExp] [NumExp 2]].

(** Two type definitions named a, one listing the record r1 and one
    the record r2, and a union u listing both:
    (define-type a (r1 (x : number))) (define-type a (r2 (y : number)))
    (define-type u (r1 (x : number)) (r2 (y : number))). *)
Definition recordOne : RecordTExp := makeRecord 1 "r1" [makeField "x" NumTExp].
Definition recordTwo : RecordTExp := makeRecord 2 "r2" [makeField "y" NumTExp].
Definition homonymProgram : Program :=
  makeProgram
    [DefineTypeExp "a" (makeUserDefinedTExp "a" [recordOne]);
     DefineTypeExp "a" (makeUserDefinedTExp "a" [recordTwo]);
     DefineTypeExp "u" (makeUserDefinedTExp "u"
                          [makeRecord 3 "r1" [makeField "x" NumTExp];
                           makeRecord 4 "r2" [makeField "y" NumTExp]])].

(** (let (((c : circle) (make-circle 3)) ((n : number) 1)) n) *)
Definition letCircle : Exp :=
  LetExp [makeBinding (makeVarDecl "c" (UserDefinedNameTExp "circle"))
                      (AppExp (VarRef "make-circle") [NumExp 3]);
          makeBinding (makeVarDecl "n" NumTExp) (NumExp 1)]
         [VarRef "n"].

(** * Properties *)

(** ** Structural equality *)

Lemma equals_iff (a b : TExp) : equals a b = true <-> structure a = structure b.
Proof.
  unfold equals. destruct (TExp_eq_dec (structure a) (structure b)); split; congruence.
Qed.

Lemma equals_refl (a : TExp) : equals a a = true.
Proof. apply equals_iff. reflexivity. Qed.

Lemma equals_sym (a b : TExp) : equals a b = equals b a.
Proof.
  destruct (equals a b) eqn:E, (equals b a) eqn:E'; trivial.
  - apply equals_iff in E. symmetry in E. apply equals_iff in E. congruence.
  - apply equals_iff in E'. symmetry in E'. apply equals_iff in E'. congruence.
Qed.

Lemma equals_trans (a b c : TExp) :
  equals a b = true -> equals b c = true -> equals a c = true.
Proof. rewrite !equals_iff. congruence. Qed.

Lemma equals_name (t : TExp) (n : string) :
  equals t (UserDefinedNameTExp n) = true -> t = UserDefinedNameTExp n.
Proof.
  rewrite equals_iff. destruct t; simpl; try discriminate. trivial.
Qed.

Lemma equals_record_union (r : RecordTExp) (u : UserDefinedTExp) :
  equals (TRecord r) (TUserDefined u) = false /\ equals (TUserDefined u) (TRecord r) = false.
Proof.
  split.
  - destruct (equals (TRecord r) (TUserDefined u)) eqn:E; trivial.
    apply equals_iff in E. discriminate.
  - destruct (equals (TUserDefined u) (TRecord r)) eqn:E; trivial.
    apply equals_iff in E. discriminate.
Qed.

(** ** Name lookup *)

Lemma getItemByName_name {T} `{HasTypeName T} (n : string) (items : list T) (x : T) :
  getItemByName n items = Ok x -> typeName x = n /\ In x items.
Proof.
  induction items as [|y items IH]; simpl; [discriminate|].
  destruct (String.eqb (typeName y) n) eqn:E.
  - intros [= <-]. apply String.eqb_eq in E. auto.
  - intros Hx. destruct (IH Hx). auto.
Qed.

Lemma getItemByName_found {T} `{HasTypeName T} (n : string) (items : list T) (x : T) :
  In x items -> typeName x = n -> exists y, getItemByName n items = Ok y.
Proof.
  induction items as [|z items IH]; simpl; [tauto|].
  intros [->|Hin] Hn.
  - rewrite Hn, String.eqb_refl. eauto.
  - destruct (String.eqb (typeName z) n); eauto.
Qed.

Lemma getTypeByName_union (n : string) (p : Program) (u : UserDefinedTExp) :
  getTypeByName n p = Ok (TUserDefined u) <-> getUserDefinedTypeByName n p = Ok u.
Proof.
  unfold getTypeByName.
  destruct (getUserDefinedTypeByName n p) as [u'|m]; simpl.
  - split; congruence.
  - destruct (getRecordByName n p); simpl; split; discriminate.
Qed.

Lemma getTypeByName_record (n : string) (p : Program) (r : RecordTExp) :
  getTypeByName n p = Ok (TRecord r) <->
  isFailure (getUserDefinedTypeByName n p) = true /\ getRecordByName n p = Ok r.
Proof.
  unfold getTypeByName.
  destruct (getUserDefinedTypeByName n p) as [u'|m]; simpl.
  - split; [discriminate | intros [? _]; discriminate].
  - destruct (getRecordByName n p); simpl; split; try discriminate.
    + intros [= ->]. auto.
    + intros [_ [= ->]]. reflexivity.
    + intros [_ ?]. discriminate.
Qed.

Lemma includesRef_In (rs : list RecordTExp) (r : RecordTExp) :
  In r rs -> includesRef rs r = true.
Proof.
  intros Hin. apply existsb_exists. exists r. split; trivial. apply Nat.eqb_refl.
Qed.

Lemma includesName_In (rs : list RecordTExp) (r : RecordTExp) :
  In r rs ->
  existsb (fun record : RecordTExp => String.eqb (typeName record) (typeName r)) rs = true.
Proof.
  intros Hin. apply existsb_exists. exists r. split; trivial. apply String.eqb_refl.
Qed.

Section CompatibilityProperties.

Context {host : Host}.

(** The last branch of [checkEqualType] is a failure whatever the
    unparsers answer. *)
Lemma incompatible_isFailure (r1 r2 r3 : Result string) :
  isFailure (bind r1 (fun s1 =>
             bind r2 (fun s2 =>
             bind r3 (fun s =>
               @makeFailure TExp ("Incompatible types: " ++ s1 ++ " and " ++ s2 ++ " in " ++ s)%string))))
  = true.
Proof. destruct r1, r2, r3; reflexivity. Qed.

Lemma checkEqualType_cases (te1 te2 : TExp) (exp : Parsed) (p : Program) :
  (checkEqualType te1 te2 exp p = Ok te2
   /\ (equals te1 te2 || checkDeepEqualType te1 te2 p
       || checkDeepEqualType te2 te1 p || isSubType te1 te2 p) = true)
  \/ (isFailure (checkEqualType te1 te2 exp p) = true
      /\ (equals te1 te2 || checkDeepEqualType te1 te2 p
          || checkDeepEqualType te2 te1 p || isSubType te1 te2 p) = false).
Proof.
  unfold checkEqualType.
  destruct (equals te1 te2); [left; auto|].
  destruct (checkDeepEqualType te1 te2 p); [left; auto|].
  destruct (checkDeepEqualType te2 te1 p); [left; auto|].
  destruct (isSubType te1 te2 p); [left; auto|].
  right. split; [apply incompatible_isFailure | reflexivity].
Qed.

(** C7: every type is compatible with Any, and every type is a subtype
    of Any. *)
Theorem any_absorbs (t : TExp) (exp : Parsed) (p : Program) :
  checkEqualType t AnyTExp exp p = Ok AnyTExp /\ isSubType t AnyTExp p = true.
Proof.
  assert (Hsub : isSubType t AnyTExp p = true) by reflexivity.
  split; trivial.
  destruct (checkEqualType_cases t AnyTExp exp p) as [[H _]|[_ H]]; trivial.
  rewrite Hsub in H. rewrite !orb_true_r in H. discriminate.
Qed.

(** C9: when [checkEqualType] succeeds, the type it returns is its
    second argument, in every success branch. *)
Theorem checkEqualType_returns_second (te1 te2 t : TExp) (exp : Parsed) (p : Program) :
  checkEqualType te1 te2 exp p = Ok t -> t = te2.
Proof.
  intros H.
  destruct (checkEqualType_cases te1 te2 exp p) as [[H' _]|[H' _]].
  - congruence.
  - rewrite H in H'. discriminate.
Qed.

End CompatibilityProperties.

(** ** A record and its union *)

Lemma listsRecord_existsb (n : string) (v : UserDefinedTExp) :
  existsb (fun record : RecordTExp => String.eqb (typeName record) n) (records v) = true
  <-> listsRecord n v.
Proof.
  unfold listsRecord. rewrite existsb_exists, in_map_iff. split.
  - intros (r & Hr & E). apply String.eqb_eq in E. eauto.
  - intros (r & E & Hr). exists r. split; trivial. apply String.eqb_eq, E.
Qed.

Lemma sameObjectIn_includesRef (u : UserDefinedTExp) (r : RecordTExp) :
  includesRef (records u) r = true <-> sameObjectIn u r.
Proof.
  unfold includesRef, sameObjectIn. rewrite existsb_exists.
  split; intros (r' & Hr & E); exists r'; split; trivial; apply Nat.eqb_eq; trivial.
Qed.

Lemma denotes_union_form (p : Program) (u : UserDefinedTExp) (tU : TExp) :
  denotes p tU (TUserDefined u) ->
  tU = TUserDefined u
  \/ (tU = UserDefinedNameTExp (typeName u)
      /\ getUserDefinedTypeByName (typeName u) p = Ok u).
Proof.
  intros [->|(n & -> & Hn)]; [left; trivial|right].
  apply getTypeByName_union in Hn.
  pose proof Hn as Hn'. apply getItemByName_name in Hn' as [<- _]. auto.
Qed.

Lemma equals_union_name (u : UserDefinedTExp) (n : string) :
  equals (TUserDefined u) (UserDefinedNameTExp n) = false.
Proof.
  destruct (equals _ _) eqn:E; trivial. apply equals_name in E. discriminate.
Qed.

Lemma equals_names (n n' : string) :
  equals (UserDefinedNameTExp n') (UserDefinedNameTExp n) = true <-> n = n'.
Proof.
  rewrite equals_iff. simpl. split; congruence.
Qed.

Section Directionality.

Context {host : Host}.

Lemma checkEqualType_accepts (te1 te2 : TExp) (exp : Parsed) (p : Program) :
  isOk (checkEqualType te1 te2 exp p)
  = (equals te1 te2 || checkDeepEqualType te1 te2 p
     || checkDeepEqualType te2 te1 p || isSubType te1 te2 p).
Proof.
  destruct (checkEqualType_cases te1 te2 exp p) as [[H ->]|[H ->]].
  - rewrite H. reflexivity.
  - destruct (checkEqualType te1 te2 exp p); [discriminate|reflexivity].
Qed.

Lemma checkDeepEqualType_name (n : string) (t : TExp) (p : Program) :
  checkDeepEqualType (UserDefinedNameTExp n) t p
  = (isUserDefinedTExp t || isRecord t)
    && match getTypeByName n p with Ok t' => equals t' t | Failure _ => false end.
Proof.
  unfold checkDeepEqualType. f_equal.
  destruct (getTypeByName n p) as [t'|m]; cbn [bind]; [|reflexivity].
  destruct (equals t' t); reflexivity.
Qed.

Lemma case_below_union (p : Program) (u : UserDefinedTExp) (tR tU : TExp) :
  caseOf u tR -> denotes p tU (TUserDefined u) -> isSubType tR tU p = true.
Proof.
  intros HR HU.
  apply denotes_union_form in HU as [->|[-> Hu]];
    destruct tR; try contradiction; unfold isSubType; simpl; rewrite ?Hu; simpl;
    first [apply sameObjectIn_includesRef | apply listsRecord_existsb]; exact HR.
Qed.

Lemma case_accepted_as_union (p : Program) (u : UserDefinedTExp) (tR tU : TExp)
      (exp : Parsed) :
  caseOf u tR -> denotes p tU (TUserDefined u) -> checkEqualType tR tU exp p = Ok tU.
Proof.
  intros HR HU.
  destruct (checkEqualType_cases tR tU exp p) as [[H _]|[_ H]]; trivial.
  rewrite (@case_below_union p u tR tU HR HU), !orb_true_r in H. discriminate.
Qed.

(** The union is accepted where its case is expected exactly when the
    case is a name that clashes with a type definition. *)
Lemma union_as_case (p : Program) (u : UserDefinedTExp) (tR tU : TExp) (exp : Parsed) :
  caseOf u tR -> denotes p tU (TUserDefined u) ->
  isOk (checkEqualType tU tR exp p) = true <-> nameClash p tU tR.
Proof.
  intros HR HU. rewrite checkEqualType_accepts.
  apply denotes_union_form in HU as [->|[-> Hu]];
    destruct tR as [| | | | | | | | |r|n]; try contradiction.
  - rewrite (proj2 (equals_record_union r u)).
    split; [discriminate | intros (n & v & E & _); discriminate].
  - rewrite equals_union_name, checkDeepEqualType_name.
    replace (checkDeepEqualType (TUserDefined u) (UserDefinedNameTExp n) p) with false
      by reflexivity.
    replace (isSubType (TUserDefined u) (UserDefinedNameTExp n) p) with false
      by (unfold isSubType; simpl; destruct (getUserDefinedTypeByName n p); reflexivity).
    cbn [isUserDefinedTExp orb andb]. rewrite orb_false_r.
    unfold nameClash. split.
    + intros E. destruct (getTypeByName n p) as [t'|m] eqn:Et; [|discriminate].
      pose proof E as E'. apply equals_iff in E'.
      destruct t' as [| | | | | | | |v| |]; simpl in E'; try discriminate.
      apply getTypeByName_union in Et. exists n, v. auto.
    + intros (n0 & v & [= <-] & Hv & E). apply getTypeByName_union in Hv.
      rewrite Hv. exact E.
  - rewrite checkDeepEqualType_name.
    replace (checkDeepEqualType (TRecord r) (UserDefinedNameTExp (typeName u)) p) with false
      by reflexivity.
    rewrite (proj2 (getTypeByName_union (typeName u) p u) Hu).
    rewrite (proj2 (equals_record_union r u)).
    replace (equals (UserDefinedNameTExp (typeName u)) (TRecord r)) with false.
    2:{ symmetry. destruct (equals _ _) eqn:E; trivial. apply equals_iff in E. discriminate. }
    replace (isSubType (UserDefinedNameTExp (typeName u)) (TRecord r) p) with false
      by reflexivity.
    split; [discriminate | intros (n & v & E & _); discriminate].
  - rewrite !checkDeepEqualType_name. cbn [isUserDefinedTExp isRecord orb andb].
    rewrite !orb_false_r.
    unfold nameClash. split.
    + intros H. apply orb_true_iff in H as [H|H].
      * apply equals_names in H. subst n. exists (typeName u), u. auto.
      * unfold isSubType in H. simpl in H.
        destruct (getUserDefinedTypeByName n p) as [v|m] eqn:Ev; [|discriminate].
        simpl in H. apply listsRecord_existsb in H. exists n, v. auto.
    + intros (n0 & v & [= <-] & Hv & [E|Hl]).
      * apply orb_true_iff. left. apply equals_names, E.
      * apply orb_true_iff. right. unfold isSubType. simpl. rewrite Hv. simpl.
        apply listsRecord_existsb, Hl.
Qed.

(** C4, as the code has it: a case of a union, given as one of the
    union's record objects or as the name of one of its records, is
    accepted where the union is expected, giving the union; the union
    is refused where the case is expected, unless the case is given by
    a name that clashes with a type definition
    ([nameClash]), and then the union is accepted too. *)
Theorem subtyping_is_directional
        (p : Program) (u : UserDefinedTExp) (tR tU : TExp) (exp : Parsed) :
  caseOf u tR -> denotes p tU (TUserDefined u) ->
  checkEqualType tR tU exp p = Ok tU
  /\ (~ nameClash p tU tR -> isFailure (checkEqualType tU tR exp p) = true)
  /\ (nameClash p tU tR -> checkEqualType tU tR exp p = Ok tR).
Proof.
  intros HR HU. split; [apply (@case_accepted_as_union p u tR tU exp HR HU)|].
  pose proof (@union_as_case p u tR tU exp HR HU) as Hiff.
  destruct (checkEqualType_cases tU tR exp p) as [[H _]|[H _]].
  - split; trivial. intros Hno. elim Hno. apply Hiff. rewrite H. reflexivity.
  - split; trivial. intros Hclash. apply Hiff in Hclash.
    destruct (checkEqualType tU tR exp p); discriminate.
Qed.

End Directionality.

(** The record [circle] and a reference by name to its union [shape]. *)
Lemma subtyping_is_directional_witness :
  (caseOf shape (TRecord circle)
   /\ denotes shapeProgram (UserDefinedNameTExp "shape") (TUserDefined shape))
  /\ @checkEqualType (exampleHost shapeProgram) (TRecord circle) (UserDefinedNameTExp "shape")
       (ParsedExp (NumExp 0)) shapeProgram = Ok (UserDefinedNameTExp "shape")
  /\ (~ nameClash shapeProgram (UserDefinedNameTExp "shape") (TRecord circle) ->
      isFailure (@checkEqualType (exampleHost shapeProgram) (UserDefinedNameTExp "shape")
                   (TRecord circle) (ParsedExp (NumExp 0)) shapeProgram) = true)
  /\ (nameClash shapeProgram (UserDefinedNameTExp "shape") (TRecord circle) ->
      @checkEqualType (exampleHost shapeProgram) (UserDefinedNameTExp "shape")
        (TRecord circle) (ParsedExp (NumExp 0)) shapeProgram = Ok (TRecord circle)).
Proof.
  assert (H1 : caseOf shape (TRecord circle)).
  { exists circle. split; [simpl; auto | reflexivity]. }
  assert (H2 : denotes shapeProgram (UserDefinedNameTExp "shape") (TUserDefined shape)).
  { right. exists "shape". split; reflexivity. }
  split; [auto|].
  exact (@subtyping_is_directional (exampleHost shapeProgram) shapeProgram shape
           (TRecord circle) (UserDefinedNameTExp "shape") (ParsedExp (NumExp 0)) H1 H2).
Defined.

(** Two programs on which C4 as stated fails.  In the first, the record r
    is a case of the union u, r and u given by name are not
    structurally equal, and u is accepted where r is expected: the
    name r resolves to the type definition r, which lists a record
    named u.  In the second, the union b declares a record r, the
    constructor make-r returns the record object of the first
    declaration of r, structurally equal to the one b lists, and it is
    refused where b is expected. *)
Lemma subtyping_is_directional_counterexample :
  (listsRecord "r" mutualU
   /\ getTypeByName "u" mutualProgram = Ok (TUserDefined mutualU)
   /\ equals (UserDefinedNameTExp "r") (UserDefinedNameTExp "u") = false
   /\ @checkEqualType (exampleHost mutualProgram) (UserDefinedNameTExp "u")
        (UserDefinedNameTExp "r") (ParsedExp (NumExp 0)) mutualProgram
      = Ok (UserDefinedNameTExp "r"))
  /\ (In secondR (records unionB)
      /\ equals (TRecord firstR) (TRecord secondR) = true
      /\ equals (TRecord firstR) (TUserDefined unionB) = false
      /\ applyTEnv (initTEnv twoUnionsProgram) "make-r"
         = Ok (ProcTExp [NumTExp] (TRecord firstR))
      /\ isFailure (@checkEqualType (exampleHost twoUnionsProgram) (TRecord firstR)
                      (TUserDefined unionB) (ParsedExp (NumExp 0)) twoUnionsProgram) = true).
Proof.
  split.
  - repeat split; try reflexivity. unfold listsRecord. simpl. auto.
  - repeat split; try reflexivity. simpl. auto.
Qed.

(** When te2 is a name and te1 the type definition it resolves to. *)
Lemma checkEqualType_returns_second_witness :
  @checkEqualType (exampleHost shapeProgram) (TUserDefined shape) (UserDefinedNameTExp "shape")
     (ParsedExp (NumExp 0)) shapeProgram = Ok (UserDefinedNameTExp "shape")
  /\ UserDefinedNameTExp "shape" = UserDefinedNameTExp "shape".
Proof.
  split; [reflexivity|].
  apply (@checkEqualType_returns_second (exampleHost shapeProgram) (TUserDefined shape)
           (UserDefinedNameTExp "shape") (UserDefinedNameTExp "shape")
           (ParsedExp (NumExp 0)) shapeProgram).
  reflexivity.
Defined.

(** ** Assignment *)

Section Assignment.

Context {host : Host}.

Lemma typeofSet_unfold (fuel : nat) (v : string) (val : Exp) (tenv : TEnv) (p : Program)
      (typeOfVar typeOfVal : TExp) :
  typeofExp fuel (VarRef v) tenv p = Some (Ok typeOfVar) ->
  typeofExp fuel val tenv p = Some (Ok typeOfVal) ->
  typeofExp (S fuel) (SetExp v val) tenv p
  = Some (mapv (checkEqualType typeOfVar typeOfVal (SetExp v val) p) (fun _ => VoidTExp)).
Proof.
  intros Hvar Hval. simpl. unfold typeofSet. rewrite Hvar. simpl. rewrite Hval. reflexivity.
Qed.

(** C10, as the code has it: [typeofSet] passes the variable's type
    first and the value's type second.  With the case of a union given
    as one of the union's record objects or as the name of one of its
    records, assigning a value of the union type to a variable of the
    case type gives Void; assigning a value of the case type to a
    variable of the union type fails, unless the value's type is a
    name that clashes with a type definition ([nameClash]), and then
    it gives Void too. *)
Theorem typeofSet_is_directional
        (fuel : nat) (tenv : TEnv) (p : Program) (u : UserDefinedTExp)
        (x y : string) (valR valU : Exp) (tRvar tRval tUvar tUval : TExp) :
  caseOf u tRvar -> caseOf u tRval ->
  denotes p tUvar (TUserDefined u) -> denotes p tUval (TUserDefined u) ->
  typeofExp fuel (VarRef x) tenv p = Some (Ok tRvar) ->
  typeofExp fuel (VarRef y) tenv p = Some (Ok tUvar) ->
  typeofExp fuel valR tenv p = Some (Ok tRval) ->
  typeofExp fuel valU tenv p = Some (Ok tUval) ->
  typeofExp (S fuel) (SetExp x valU) tenv p = Some (Ok VoidTExp)
  /\ (~ nameClash p tUvar tRval ->
      exists m, typeofExp (S fuel) (SetExp y valR) tenv p = Some (Failure m))
  /\ (nameClash p tUvar tRval ->
      typeofExp (S fuel) (SetExp y valR) tenv p = Some (Ok VoidTExp)).
Proof.
  intros HRvar HRval HUvar HUval Hx Hy HvalR HvalU.
  rewrite typeofSet_unfold with (typeOfVar := tRvar) (typeOfVal := tUval) by assumption.
  rewrite typeofSet_unfold with (typeOfVar := tUvar) (typeOfVal := tRval) by assumption.
  rewrite (@case_accepted_as_union host p u tRvar tUval (SetExp x valU) HRvar HUval).
  split; [reflexivity|].
  pose proof (@union_as_case host p u tRval tUvar (SetExp y valR) HRval HUvar) as Hiff.
  destruct (checkEqualType tUvar tRval (SetExp y valR) p) as [t|m]; split.
  - intros Hno. elim Hno. apply Hiff. reflexivity.
  - reflexivity.
  - exists m. reflexivity.
  - intros Hclash. apply Hiff in Hclash. discriminate.
Qed.

End Assignment.

(** Under c : circle and s : shape, (set! c s) is accepted and
    (set! s (make-circle 1)) is refused. *)
Lemma typeofSet_is_directional_witness :
  @typeofExp (exampleHost shapeProgram) 4 (SetExp "c" (VarRef "s")) setEnv shapeProgram
  = Some (Ok VoidTExp)
  /\ (~ nameClash shapeProgram (UserDefinedNameTExp "shape") (TRecord circle) ->
      exists m,
        @typeofExp (exampleHost shapeProgram) 4
           (SetExp "s" (AppExp (VarRef "make-circle") [NumExp 1])) setEnv shapeProgram
        = Some (Failure m))
  /\ (nameClash shapeProgram (UserDefinedNameTExp "shape") (TRecord circle) ->
      @typeofExp (exampleHost shapeProgram) 4
         (SetExp "s" (AppExp (VarRef "make-circle") [NumExp 1])) setEnv shapeProgram
      = Some (Ok VoidTExp)).
Proof.
  apply (@typeofSet_is_directional (exampleHost shapeProgram) 3 setEnv shapeProgram shape
           "c" "s" (AppExp (VarRef "make-circle") [NumExp 1]) (VarRef "s")
           (UserDefinedNameTExp "circle") (TRecord circle)
           (UserDefinedNameTExp "shape") (UserDefinedNameTExp "shape")).
  - unfold caseOf, listsRecord. simpl. auto.
  - exists circle. split; [simpl; auto | reflexivity].
  - right. exists "shape". split; reflexivity.
  - right. exists "shape". split; reflexivity.
  - reflexivity.
  - reflexivity.
  - reflexivity.
  - reflexivity.
Defined.

(** Two programs on which C10 as stated fails.  In the first, with c : r
    and s : u, the record r a case of the union u, assigning c to s is
    accepted: the name r resolves to the type definition r, which
    lists a record named u.  In the second, the name r is bound to the
    record object of the first declaration of r, the name b to the
    union b, which declares a record r structurally equal to it, and
    assigning b to r is refused. *)
Lemma typeofSet_is_directional_counterexample :
  (listsRecord "r" mutualU
   /\ getTypeByName "u" mutualProgram = Ok (TUserDefined mutualU)
   /\ equals (UserDefinedNameTExp "r") (UserDefinedNameTExp "u") = false
   /\ @typeofExp (exampleHost mutualProgram) 3 (VarRef "c") mutualEnv mutualProgram
      = Some (Ok (UserDefinedNameTExp "r"))
   /\ @typeofExp (exampleHost mutualProgram) 3 (VarRef "s") mutualEnv mutualProgram
      = Some (Ok (UserDefinedNameTExp "u"))
   /\ @typeofExp (exampleHost mutualProgram) 4 (SetExp "s" (VarRef "c")) mutualEnv mutualProgram
      = Some (Ok VoidTExp))
  /\ (In secondR (records unionB)
      /\ equals (TRecord firstR) (TRecord secondR) = true
      /\ @typeofExp (exampleHost twoUnionsProgram) 3 (VarRef "r")
           (initTEnv twoUnionsProgram) twoUnionsProgram
         = Some (Ok (TRecord firstR))
      /\ @typeofExp (exampleHost twoUnionsProgram) 3 (VarRef "b")
           (initTEnv twoUnionsProgram) twoUnionsProgram
         = Some (Ok (TUserDefined unionB))
      /\ exists m,
          @typeofExp (exampleHost twoUnionsProgram) 4 (SetExp "r" (VarRef "b"))
            (initTEnv twoUnionsProgram) twoUnionsProgram
          = Some (Failure m)).
Proof.
  split.
  - repeat split; try reflexivity. unfold listsRecord. simpl. auto.
  - repeat split; try reflexivity; [simpl; auto|]. eexists. reflexivity.
Qed.

(** ** Definitions at top level *)

Lemma typeofDefine_unfold {host : Host} (fuel : nat) (vd : VarDecl) (val : Exp)
      (tenv : TEnv) (p : Program) :
  typeofExp (S fuel) (DefineExp vd val) tenv p
  = mapvT (typeofExp fuel val (makeExtendTEnv [var vd] [texp vd] tenv) p)
          (fun _ => VoidTExp).
Proof. reflexivity. Qed.

(** The value of a define sees the defined name at its declared type. *)
Example typeofDefine_self_reference {host : Host} (p : Program) :
  typeofExp 2 (DefineExp (makeVarDecl "x" NumTExp) (VarRef "x")) makeEmptyTEnv p
  = Some (Ok VoidTExp).
Proof. reflexivity. Qed.

(** C1: [typeofDefine] does not compare the value's type with the
    declaration: (define (x : number) "a") has type Void. *)
Theorem typeofDefine_ignores_declaration {host : Host} (tenv : TEnv) (p : Program) :
  typeofExp 1 (StrExp "a") (makeExtendTEnv ["x"] [NumTExp] tenv) p = Some (Ok StrTExp)
  /\ equals StrTExp NumTExp = false
  /\ typeofExp 2 defineMismatch tenv p = Some (Ok VoidTExp).
Proof. repeat split. Qed.

(** ** Well-formedness of type definitions *)

Lemma fieldIsType_not_other (n : string) (f : Field) :
  fieldIsType n f = true -> fieldIsOtherType n f = false.
Proof.
  unfold fieldIsType, fieldIsOtherType. destruct (te f); try discriminate.
  intros ->. reflexivity.
Qed.

(** A type definition with a record holding the definition itself and
    no record free of it is refused. *)
Lemma no_base_case_is_refused {host : Host} (p : Program) (def : UserDefinedTExp) :
  In def (getTypeDefinitions p) ->
  (exists r, In r (records def)) ->
  (forall r, In r (records def) ->
             exists f, In f (fields r) /\ fieldIsType (typeName def) f = true) ->
  checkUserDefinedTypes p = Failure "Invalid UDT".
Proof.
  intros Hdef [r0 Hr0] Hall. unfold checkUserDefinedTypes.
  destruct (isLegalRecord p) eqn:Hlegal; [|rewrite andb_false_r; reflexivity].
  exfalso. unfold isLegalRecord in Hlegal.
  rewrite forallb_forall in Hlegal. specialize (Hlegal def).
  rewrite filter_In in Hlegal.
  assert (Hsel : existsb (fun r => existsb (fieldIsType (typeName def)) (fields r)) (records def) = true).
  { apply existsb_exists. exists r0. split; trivial.
    destruct (Hall r0 Hr0) as (f & Hf & Hself).
    apply existsb_exists. eauto. }
  specialize (Hlegal (conj Hdef Hsel)).
  apply existsb_exists in Hlegal as (r & Hr & Hfree).
  destruct (Hall r Hr) as (f & Hf & Hself).
  rewrite forallb_forall in Hfree. specialize (Hfree f Hf).
  rewrite (@fieldIsType_not_other _ f Hself) in Hfree. discriminate.
Qed.

Lemma no_base_case_is_refused_example :
  @checkUserDefinedTypes (exampleHost streamDirectProgram) streamDirectProgram
  = Failure "Invalid UDT".
Proof. reflexivity. Qed.

(** A self-reference by name is not seen: the stream type passes. *)
Lemma stream_by_name_is_accepted :
  isLegalRecord streamProgram = true
  /\ @checkUserDefinedTypes (exampleHost streamProgram) streamProgram = Ok true.
Proof. split; reflexivity. Qed.

(** C2: the record [leaf] of [tree] has no field of type [tree], yet the
    definition is refused: a record counts as a base case only when all
    its fields hold other type definitions. *)
Theorem base_case_with_plain_field_is_refused {host : Host} :
  (exists r, In r (records tree)
             /\ forallb (fun f => negb (fieldIsType (typeName tree) f)) (fields r) = true)
  /\ isLegalRecord treeProgram = false
  /\ checkUserDefinedTypes treeProgram = Failure "Invalid UDT".
Proof.
  split; [|split].
  - exists (makeRecord 2 "leaf" [makeField "v" NumTExp]). split; [simpl; auto|reflexivity].
  - reflexivity.
  - unfold checkUserDefinedTypes.
    replace (isLegalRecord treeProgram) with false by reflexivity.
    rewrite andb_false_r. reflexivity.
Qed.

(** ** In-place sorting of the clauses *)

Lemma checkTypeCase_leaves_sorted {host : Host} (tc : TypeCaseExp) (p : Program) (b : bool) :
  fst (checkTypeCase tc p) = Ok b ->
  cases (snd (checkTypeCase tc p))
  = sort (fun a c : CaseExp => localeCompare (typeName a) (typeName c)) (cases tc).
Proof.
  unfold checkTypeCase.
  destruct (checkCoverType _ p) as [udt|m]; [|discriminate].
  destruct (match typeNameOf udt with Some n => _ | None => _ end) as [ud|m]; [|discriminate].
  reflexivity.
Qed.

(** C5: [checkTypeCase] reorders the clauses of the expression it
    checks: the clauses written square, circle are left as circle,
    square. *)
Theorem checkTypeCase_reorders_clauses :
  map (fun c : CaseExp => typeName c) (cases shapeCases) = ["square"; "circle"]
  /\ fst (@checkTypeCase (exampleHost shapeProgram) shapeCases shapeProgram) = Ok true
  /\ map (fun c : CaseExp => typeName c)
         (cases (snd (@checkTypeCase (exampleHost shapeProgram) shapeCases shapeProgram)))
     = ["circle"; "square"]
  /\ snd (@checkTypeCase (exampleHost shapeProgram) shapeCases shapeProgram) <> shapeCases.
Proof.
  repeat split. vm_compute. discriminate.
Qed.

(** ** Covers *)

Lemma includesEq_In (x : TExp) (l : list TExp) : In x l -> includesEq x l = true.
Proof.
  intros Hin. apply existsb_exists. exists x. split; trivial. apply equals_refl.
Qed.

Lemma equals_congr (x y a : TExp) : equals x y = true -> equals x a = equals y a.
Proof.
  intros Hxy. destruct (equals x a) eqn:Hxa, (equals y a) eqn:Hya; trivial.
  - rewrite equals_sym in Hxy. rewrite (@equals_trans y x a Hxy Hxa) in Hya. discriminate.
  - rewrite (@equals_trans x y a Hxy Hya) in Hxa. discriminate.
Qed.

Lemma includesEq_congr (x y : TExp) (l : list TExp) :
  equals x y = true -> includesEq x l = includesEq y l.
Proof.
  intros Hxy. unfold includesEq. induction l as [|a l IH]; simpl; trivial.
  rewrite (@equals_congr x y a Hxy), IH. reflexivity.
Qed.

Lemma includesEq_app (x : TExp) (l1 l2 : list TExp) :
  includesEq x (l1 ++ l2) = includesEq x l1 || includesEq x l2.
Proof. apply existsb_app. Qed.

Lemma includesEq_uniq_acc (x : TExp) (l acc : list TExp) :
  includesEq x (fold_left (fun acc x => if includesEq x acc then acc else acc ++ [x]) l acc)
  = includesEq x acc || includesEq x l.
Proof.
  revert acc. induction l as [|a l IH]; intros acc; simpl.
  - rewrite orb_false_r. reflexivity.
  - rewrite IH. destruct (includesEq a acc) eqn:Ha.
    + destruct (equals x a) eqn:Hxa; simpl; trivial.
      rewrite (@includesEq_congr x a acc Hxa), Ha. reflexivity.
    + rewrite includesEq_app. simpl. rewrite orb_false_r, orb_assoc. reflexivity.
Qed.

Lemma includesEq_uniq (x : TExp) (l : list TExp) : includesEq x (uniq l) = includesEq x l.
Proof. unfold uniq. rewrite includesEq_uniq_acc. reflexivity. Qed.

Lemma includesEq_filter (x : TExp) (l other : list TExp) :
  includesEq x (filter (fun y => includesEq y other) l)
  = includesEq x l && includesEq x other.
Proof.
  induction l as [|a l IH]; trivial.
  cbn [filter]. destruct (includesEq a other) eqn:Ha.
  - change (includesEq x (a :: filter (fun y => includesEq y other) l))
      with (equals x a || includesEq x (filter (fun y => includesEq y other) l)).
    change (includesEq x (a :: l)) with (equals x a || includesEq x l).
    rewrite IH. destruct (equals x a) eqn:Hxa; simpl; trivial.
    rewrite (@includesEq_congr x a other Hxa), Ha. reflexivity.
  - change (includesEq x (a :: l)) with (equals x a || includesEq x l).
    rewrite IH. destruct (equals x a) eqn:Hxa; simpl; trivial.
    rewrite (@includesEq_congr x a other Hxa), Ha, andb_false_r. reflexivity.
Qed.

Lemma includesEq_intersection (x : TExp) (l1 l2 : list TExp) :
  includesEq x (intersection l1 l2) = includesEq x l1 && includesEq x l2.
Proof.
  unfold intersection. destruct (Nat.ltb (length l2) (length l1));
    rewrite includesEq_uniq, includesEq_filter; auto using andb_comm.
Qed.

(** C8: the cover of two types holds the same types whichever comes first. *)
Theorem cover_is_order_independent (a b : TExp) (p : Program) :
  sameSet (coverTypes [a; b] p) (coverTypes [b; a] p).
Proof.
  intros x. unfold coverTypes, reduce. simpl.
  rewrite !includesEq_intersection. apply andb_comm.
Qed.

(** The covers of a record and of its union, in both orders. *)
Example cover_is_order_independent_example :
  coverTypes [TRecord circle; UserDefinedNameTExp "shape"] shapeProgram
  = [UserDefinedNameTExp "shape"]
  /\ coverTypes [UserDefinedNameTExp "shape"; TRecord circle] shapeProgram
     = [UserDefinedNameTExp "shape"].
Proof. split; reflexivity. Qed.

(** ** The typer returns *)

Lemma In_insertSorted {T} (cmp : T -> T -> comparison) (x y : T) (l : list T) :
  In y (insertSorted cmp x l) <-> y = x \/ In y l.
Proof.
  induction l as [|z l IH]; simpl.
  - intuition.
  - destruct (cmp x z); simpl; rewrite ?IH; intuition.
Qed.

Lemma In_sort {T} (cmp : T -> T -> comparison) (y : T) (l : list T) :
  In y (sort cmp l) <-> In y l.
Proof.
  induction l as [|z l IH]; simpl; [tauto|].
  rewrite In_insertSorted, IH. intuition.
Qed.

Lemma size_in_sum {T} (f : T -> nat) (x : T) (l : list T) :
  In x l -> f x <= list_sum (map f l).
Proof.
  induction l as [|y l IH]; simpl; [tauto|].
  intros [->|Hin]; [lia|]. specialize (IH Hin). lia.
Qed.

Lemma procBody_size (proc e : Exp) : In e (procBody proc) -> size e < size proc.
Proof.
  destruct proc; simpl; try tauto.
  intros Hin. apply (size_in_sum size) in Hin. lia.
Qed.

Section Termination.

Context {host : Host}.


Lemma returns_Some {T} (r : Result T) : returns (Some r).
Proof. exists r. reflexivity. Qed.

Lemma bindT_returns {T U} (m : Typing T) (f : T -> Typing U) :
  returns m -> (forall v, returns (f v)) -> returns (bindT m f).
Proof.
  intros [[v|msg] ->] Hf; simpl; [apply Hf | apply returns_Some].
Qed.

Lemma mapvT_returns {T U} (m : Typing T) (f : T -> U) :
  returns m -> returns (mapvT m f).
Proof. intros [r ->]. apply returns_Some. Qed.

Lemma zipWithResult_returns {T1 T2 T3} (f : T1 -> T2 -> Typing T3) (xs : list T1) (ys : list T2) :
  (forall x y, In x xs -> In y ys -> returns (f x y)) ->
  returns (zipWithResult f xs ys).
Proof.
  revert ys. induction xs as [|x xs IH]; intros [|y ys] Hf; simpl; try apply returns_Some.
  apply bindT_returns; [apply Hf; simpl; auto|].
  intros fxy. apply bindT_returns; [|intros; apply returns_Some].
  apply IH. intros; apply Hf; simpl; auto.
Qed.

Lemma mapResult_returns {T U} (f : T -> Typing U) (l : list T) :
  (forall x, In x l -> returns (f x)) -> returns (mapResult f l).
Proof.
  induction l as [|x l IH]; intros Hf; simpl; [apply returns_Some|].
  apply bindT_returns; [apply Hf; simpl; auto|].
  intros fx. apply bindT_returns; [|intros; apply returns_Some].
  apply IH. intros; apply Hf; simpl; auto.
Qed.

Lemma typeofExps_returns (self : Parsed -> TEnv -> Program -> Typing TExp)
      (exps : list Exp) (tenv : TEnv) (p : Program) :
  (forall e, In e exps -> forall tenv', returns (self (ParsedExp e) tenv' p)) ->
  returns (typeofExps self exps tenv p).
Proof.
  induction exps as [|e exps IH]; intros Hself; simpl; [apply returns_Some|].
  destruct exps as [|e' exps]; [apply Hself; simpl; auto|].
  apply bindT_returns; [apply Hself; simpl; auto|].
  intros _. apply IH. intros; apply Hself; simpl; auto.
Qed.

Lemma checkTypeCase_cases_In (tc : TypeCaseExp) (p : Program) (c : CaseExp) :
  In c (cases (snd (checkTypeCase tc p))) -> In c (cases tc).
Proof.
  unfold checkTypeCase.
  destruct (checkCoverType _ p) as [udt|m]; trivial.
  destruct (match typeNameOf udt with Some n => _ | None => _ end) as [ud|m]; trivial.
  simpl. apply In_sort.
Qed.

Lemma caseBody_size (tc : TypeCaseExp) (c : CaseExp) (e : Exp) :
  In c (cases tc) -> In e (caseBody c) -> size e < sizeTypeCase tc.
Proof.
  destruct tc as [n val cs]. simpl. intros Hc He.
  apply (size_in_sum sizeCase) in Hc. destruct c as [cn vds body]. simpl in *.
  apply (size_in_sum size) in He. lia.
Qed.

(** With a budget above the size of the expression the typer returns. *)
Lemma typeofExp_returns (fuel : nat) :
  forall (x : Parsed) (tenv : TEnv) (p : Program),
    sizeParsed x < fuel -> returns (typeofExp fuel x tenv p).
Proof.
  induction fuel as [|fuel IH]; intros x tenv p Hsize; [lia|].
  destruct x as [e|q]; simpl.
  2:{ apply typeofExps_returns. intros e He tenv'. apply IH.
      simpl in *. apply (size_in_sum size) in He. lia. }
  destruct e as [n|b|s|op|v|test then_ alt|args body returnTE|rator rands
                 |bindings body|bindings body|vd val|v val|val|name udType|tc];
    simpl in Hsize; try apply returns_Some.
  - (* if *)
    unfold typeofIf.
    destruct (IH (ParsedExp test) tenv p) as [r1 ->]; [simpl; lia|].
    destruct (IH (ParsedExp then_) tenv p) as [r2 ->]; [simpl; lia|].
    destruct (IH (ParsedExp alt) tenv p) as [r3 ->]; [simpl; lia|].
    apply returns_Some.
  - (* procedure *)
    unfold typeofProc. apply bindT_returns; [|intros; apply returns_Some].
    apply bindT_returns; [|intros; apply returns_Some].
    apply typeofExps_returns. intros e He tenv'. apply IH.
    simpl. apply (size_in_sum size) in He. lia.
  - (* application *)
    unfold typeofApp. apply bindT_returns; [apply IH; simpl; lia|].
    intros ratorTE. destruct ratorTE; try apply returns_Some.
    destruct (negb _); [apply returns_Some|].
    apply mapvT_returns, zipWithResult_returns. intros rand trand Hrand _.
    apply bindT_returns; [|intros; apply returns_Some].
    apply IH. simpl. apply (size_in_sum size) in Hrand. lia.
  - (* let *)
    unfold typeofLet. apply bindT_returns.
    + apply zipWithResult_returns. intros varTE val _ Hval.
      apply bindT_returns; [|intros; apply returns_Some].
      apply IH. simpl. apply in_map_iff in Hval as (bd & <- & Hbd).
      apply (size_in_sum sizeBinding) in Hbd. destruct bd; simpl in *. lia.
    + intros _. apply typeofExps_returns. intros e He tenv'. apply IH.
      simpl. apply (size_in_sum size) in He. lia.
  - (* letrec *)
    unfold typeofLetrec. destruct (negb _); [apply returns_Some|].
    apply bindT_returns.
    + apply bindT_returns.
      * apply zipWithResult_returns. intros bodyI tenvI HbodyI _.
        apply typeofExps_returns. intros e He tenv'. apply IH. simpl.
        apply in_map_iff in HbodyI as (proc & <- & Hproc).
        apply in_map_iff in Hproc as (bd & <- & Hbd).
        apply procBody_size in He.
        apply (size_in_sum sizeBinding) in Hbd. destruct bd; simpl in *. lia.
      * intros types. apply zipWithResult_returns. intros; apply returns_Some.
    + intros _. apply typeofExps_returns. intros e He tenv'. apply IH.
      simpl. apply (size_in_sum size) in He. lia.
  - (* define *)
    unfold typeofDefine. apply mapvT_returns, IH. simpl. lia.
  - (* set! *)
    unfold typeofSet. apply mapvT_returns, bindT_returns; [apply IH; simpl; lia|].
    intros typeOfVar. apply bindT_returns; [apply IH; simpl; lia|].
    intros; apply returns_Some.
  - (* type-case *)
    unfold typeofTypeCase.
    destruct (IH (ParsedExp (tcVal tc)) tenv p) as [valTE ->].
    { destruct tc; simpl in *. lia. }
    match goal with |- returns (match fst ?c with _ => _ end) => set (constraints := c) end.
    assert (Hcs : forall c, In c (cases (snd constraints)) -> In c (cases tc)).
    { subst constraints. intros c.
      destruct (getTypeByName (typeName tc) p); trivial.
      destruct valTE; trivial.
      destruct (checkEqualType _ _ _ p); trivial.
      apply checkTypeCase_cases_In. }
    destruct (fst constraints); [|apply returns_Some].
    apply bindT_returns; [|intros; apply returns_Some].
    apply mapResult_returns. intros c Hc.
    apply bindT_returns; [apply returns_Some|].
    intros rec. apply typeofExps_returns. intros e He tenv'. apply IH. simpl.
    pose proof (caseBody_size tc c e (Hcs c Hc) He). lia.
Qed.

End Termination.

(** ** The entry point *)

Section Entry.

Context {host : Host}.



End Entry.


Example entry_on_clashProgram :
  @L51typeofProgram (exampleHost clashProgram) 5 clashText = Some (Failure "Invalid UDT").
Proof. reflexivity. Qed.

Example entry_on_shapeUse :
  @L51typeofProgram (exampleHost shapeUse) 5 "(L51 ...)" = Some (Ok "NumTExp").
Proof. reflexivity. Qed.

(** ** Sorting by name *)

Lemma Permutation_insertSorted {T} (cmp : T -> T -> comparison) (x : T) (l : list T) :
  Permutation (insertSorted cmp x l) (x :: l).
Proof.
  induction l as [|y l IH]; simpl; [reflexivity|].
  destruct (cmp x y); try reflexivity.
  rewrite IH. apply perm_swap.
Qed.

Lemma Permutation_sort {T} (cmp : T -> T -> comparison) (l : list T) :
  Permutation (sort cmp l) l.
Proof.
  induction l as [|x l IH]; simpl; [reflexivity|].
  rewrite Permutation_insertSorted. apply perm_skip, IH.
Qed.

Lemma insertSorted_map {A B} (f : A -> B) (cmpA : A -> A -> comparison)
      (cmpB : B -> B -> comparison) (x : A) (l : list A) :
  (forall a a', cmpB (f a) (f a') = cmpA a a') ->
  map f (insertSorted cmpA x l) = insertSorted cmpB (f x) (map f l).
Proof.
  intros Hcmp. induction l as [|y l IH]; simpl; trivial.
  rewrite Hcmp. destruct (cmpA x y); simpl; rewrite ?IH; reflexivity.
Qed.

Lemma sort_map {A B} (f : A -> B) (cmpA : A -> A -> comparison)
      (cmpB : B -> B -> comparison) (l : list A) :
  (forall a a', cmpB (f a) (f a') = cmpA a a') ->
  map f (sort cmpA l) = sort cmpB (map f l).
Proof.
  intros Hcmp. induction l as [|x l IH]; simpl; trivial.
  rewrite (insertSorted_map f cmpA cmpB x (sort cmpA l) Hcmp), IH. reflexivity.
Qed.

Section SortByName.

Context {host : Host}.

(** [localeCompare] is a total order on the names of the list, and the
    elements sorted carry names of the list. *)
Variable names : list string.
Hypothesis names_ordered : totalOrderOn names.

Variable T : Type.
Variable key : T -> string.

Lemma before_total (a b : T) :
  In (key a) names -> In (key b) names -> (byName key) a b = Gt -> (before key) b a.
Proof.
  destruct names_ordered as (_ & Hanti & _).
  unfold before, byName. intros Ha Hb H. rewrite (Hanti _ _ Hb Ha), H. discriminate.
Qed.

Lemma before_both (a b : T) :
  In (key a) names -> In (key b) names ->
  (before key) a b -> (before key) b a -> key a = key b.
Proof.
  destruct names_ordered as (Heq & Hanti & _).
  unfold before, byName. intros Ha Hb Hab Hba. apply Heq; trivial.
  pose proof (Hanti _ _ Ha Hb) as H.
  destruct (localeCompare (key b) (key a)); simpl in H; congruence.
Qed.

Lemma before_trans (a b c : T) :
  In (key a) names -> In (key b) names -> In (key c) names ->
  (before key) a b -> (before key) b c -> (before key) a c.
Proof.
  destruct names_ordered as (_ & _ & Htrans). unfold before, byName. eauto.
Qed.

Lemma insertSorted_sorted (x : T) (l : list T) :
  In (key x) names -> Forall (fun y => In (key y) names) l ->
  StronglySorted (before key) l -> StronglySorted (before key) (insertSorted (byName key) x l).
Proof.
  intros Hx Hl Hs. induction Hs as [|y l Hs IH Hy]; simpl.
  - repeat constructor.
  - apply Forall_cons_iff in Hl as [Hky Hl].
    assert (Hle : (before key) x y -> StronglySorted (before key) (x :: y :: l)).
    { intros Hxy. constructor; [constructor; assumption|].
      constructor; trivial.
      rewrite Forall_forall in Hy, Hl. apply Forall_forall. intros z Hz.
      apply (@before_trans x y z); auto. }
    destruct ((byName key) x y) eqn:E.
    + apply Hle. unfold before. congruence.
    + apply Hle. unfold before. congruence.
    + constructor; [apply IH, Hl|].
      apply (Permutation_Forall (Permutation_sym (Permutation_insertSorted (byName key) x l))).
      constructor; [apply before_total; trivial | exact Hy].
Qed.

Lemma sort_sorted (l : list T) :
  Forall (fun y => In (key y) names) l -> StronglySorted (before key) (sort (byName key) l).
Proof.
  induction l as [|x l IH]; simpl; [constructor|]. intros Hl.
  apply Forall_cons_iff in Hl as [Hx Hl].
  apply insertSorted_sorted; auto.
  apply (Permutation_Forall (Permutation_sym (Permutation_sort (byName key) l))), Hl.
Qed.

Lemma sorted_unique (l1 : list T) :
  forall l2, Forall (fun y => In (key y) names) l1 ->
             (forall a b, In a l1 -> In b l1 -> key a = key b -> a = b) ->
             StronglySorted (before key) l1 -> StronglySorted (before key) l2 ->
             Permutation l1 l2 -> l1 = l2.
Proof.
  induction l1 as [|a l1 IH]; intros l2 Hnames Hsame Hs1 Hs2 Hperm.
  - apply Permutation_nil in Hperm. congruence.
  - destruct l2 as [|b l2].
    { apply Permutation_sym, Permutation_nil in Hperm. discriminate. }
    apply StronglySorted_inv in Hs1 as [Hs1 Ha].
    apply StronglySorted_inv in Hs2 as [Hs2 Hb].
    apply Forall_cons_iff in Hnames as [Hka Hnames].
    assert (Hab : a = b).
    { assert (Hin_a : In a (b :: l2)) by (apply (Permutation_in _ Hperm); simpl; auto).
      assert (Hin_b : In b (a :: l1))
        by (apply (Permutation_in _ (Permutation_sym Hperm)); simpl; auto).
      destruct Hin_a as [->|Hin_a]; trivial.
      destruct Hin_b as [->|Hin_b]; trivial.
      apply Hsame; simpl; auto.
      rewrite Forall_forall in Ha, Hb, Hnames.
      apply before_both; auto. }
    subst b. f_equal. apply IH; trivial.
    + intros x y Hx Hy. apply Hsame; simpl; auto.
    + apply (Permutation_cons_inv Hperm).
Qed.

(** Two arrangements of the same elements, among which a name
    determines the element, sort to the same list. *)
Lemma sort_canonical (l1 l2 : list T) :
  Forall (fun y => In (key y) names) l1 ->
  (forall a b, In a l1 -> In b l1 -> key a = key b -> a = b) ->
  Permutation l1 l2 -> sort (byName key) l1 = sort (byName key) l2.
Proof.
  intros Hnames Hsame Hperm.
  assert (Hsorted1 : Permutation (sort (byName key) l1) l1) by apply Permutation_sort.
  apply sorted_unique.
  - apply (Permutation_Forall (Permutation_sym Hsorted1)), Hnames.
  - intros a b Ha Hb. apply Hsame; apply (Permutation_in _ Hsorted1); trivial.
  - apply sort_sorted, Hnames.
  - apply sort_sorted, (Permutation_Forall Hperm), Hnames.
  - rewrite !Permutation_sort. exact Hperm.
Qed.

End SortByName.

(** ** Covers of names *)

Lemma getParentsOfName_union (n : string) (p : Program) (u : UserDefinedTExp) :
  getUserDefinedTypeByName n p = Ok u ->
  getParentsOfName n p = [UserDefinedNameTExp n].
Proof.
  intros Hu. unfold getParentsOfName. rewrite Hu. simpl.
  apply getItemByName_name in Hu as [-> _]. reflexivity.
Qed.

Lemma getParentsOfName_case (p : Program) (u : UserDefinedTExp) (r : RecordTExp) :
  getUserDefinedTypeByName (typeName u) p = Ok u ->
  In r (records u) ->
  typeName r = typeName u \/ isFailure (getUserDefinedTypeByName (typeName r) p) = true ->
  In (UserDefinedNameTExp (typeName u)) (getParentsOfName (typeName r) p).
Proof.
  intros Hu Hr [Hsame|Hfree].
  - rewrite Hsame, (@getParentsOfName_union (typeName u) p u Hu). simpl. auto.
  - unfold getParentsOfName.
    destruct (getUserDefinedTypeByName (typeName r) p) as [u'|m]; [discriminate|]. simpl.
    assert (Hdef : In u (getTypeDefinitions p))
      by (apply getItemByName_name in Hu; tauto).
    assert (Hrec : In r (getRecords p)).
    { unfold getRecords. apply in_concat. exists (records u). split; trivial.
      apply in_map, Hdef. }
    destruct (@getItemByName_found RecordTExp _ (typeName r) (getRecords p) r Hrec eq_refl)
      as [rec Hfound].
    unfold getRecordByName. rewrite Hfound. simpl. right.
    apply getItemByName_name in Hfound as [Hname _]. rewrite Hname.
    apply (in_map (fun ud : UserDefinedTExp => makeUserDefinedNameTExp (typeName ud))
                  (getRecordParents (typeName r) p) u).
    unfold getRecordParents. apply filter_In. split; trivial.
    apply existsb_exists. exists (typeName r). split; [|apply String.eqb_refl].
    apply (in_map (fun rec : RecordTExp => typeName rec)), Hr.
Qed.

Lemma intersection_singleton (x : TExp) (l : list TExp) :
  In x l -> intersection [x] l = [x].
Proof.
  intros Hin. unfold intersection.
  destruct l as [|y l]; [contradiction|].
  replace (Nat.ltb (length (y :: l)) (length [x])) with false
    by (symmetry; apply Nat.ltb_ge; simpl; lia).
  cbn [filter]. rewrite (includesEq_In x (y :: l) Hin). reflexivity.
Qed.

Lemma fold_intersection_singleton (x : TExp) (ls : list (list TExp)) :
  (forall l, In l ls -> In x l) -> fold_left intersection ls [x] = [x].
Proof.
  induction ls as [|l ls IH]; intros Hall; simpl; trivial.
  rewrite intersection_singleton by (apply Hall; simpl; auto).
  apply IH. intros; apply Hall; simpl; auto.
Qed.

Lemma fold_intersection_within (ls : list (list TExp)) :
  forall acc x, In x (fold_left intersection ls acc) -> includesEq x acc = true.
Proof.
  induction ls as [|l ls IH]; intros acc x; simpl.
  - apply includesEq_In.
  - intros Hin. apply IH in Hin. rewrite includesEq_intersection in Hin.
    apply andb_true_iff in Hin. tauto.
Qed.

Lemma mostSpecificType_same (x : TExp) (l : list TExp) (p : Program) :
  l <> [] -> (forall y, In y l -> y = x) -> mostSpecificType l p = x.
Proof.
  assert (Hfold : forall l', (forall y, In y l' -> y = x) ->
            fold_left (fun min element => if isSubType element min p then element else min) l' x = x).
  { induction l' as [|y l' IH]; intros Hall; simpl; trivial.
    rewrite (Hall y) by (simpl; auto).
    destruct (isSubType x x p); apply IH; intros; apply Hall; simpl; auto. }
  destruct l as [|y l]; [congruence|]. intros _ Hall.
  unfold mostSpecificType, reduce. simpl.
  rewrite (Hall y) by (simpl; auto).
  replace (isSubType x makeAnyTExp p) with true by reflexivity.
  apply Hfold. intros; apply Hall; simpl; auto.
Qed.

Section TypeCaseCover.

Context {host : Host}.

Variables (p : Program) (u : UserDefinedTExp) (n : string).
Hypothesis n_is_u : getUserDefinedTypeByName n p = Ok u.

(** A cover that contains the name of a union holds nothing else. *)
Lemma checkCoverType_union_name (ts : list TExp) (t : TExp) :
  checkCoverType (makeUserDefinedNameTExp n :: ts) p = Ok t ->
  t = UserDefinedNameTExp n.
Proof.
  unfold checkCoverType, coverTypes, reduce. cbn [map getParentsType makeUserDefinedNameTExp].
  rewrite (@getParentsOfName_union n p u n_is_u).
  destruct (fold_left intersection _ _) as [|y l] eqn:Hcover; [discriminate|].
  intros [= <-]. apply mostSpecificType_same; [discriminate|].
  intros x Hx. rewrite <- Hcover in Hx. apply fold_intersection_within in Hx.
  simpl in Hx. rewrite orb_false_r in Hx. apply equals_name, Hx.
Qed.

Lemma checkCoverType_cases (names : list string) :
  (forall c, In c names -> In (UserDefinedNameTExp n) (getParentsOfName c p)) ->
  checkCoverType (makeUserDefinedNameTExp n :: map makeUserDefinedNameTExp names) p
  = Ok (UserDefinedNameTExp n).
Proof.
  intros Hall.
  unfold checkCoverType, coverTypes, reduce. cbn [map getParentsType makeUserDefinedNameTExp].
  rewrite (@getParentsOfName_union n p u n_is_u).
  rewrite fold_intersection_singleton.
  - reflexivity.
  - intros l Hl. apply in_map_iff in Hl as (t & <- & Ht).
    apply in_map_iff in Ht as (c & <- & Hc). simpl. apply Hall, Hc.
Qed.

End TypeCaseCover.

(** ** Exactness of type-case *)

Lemma aligned_iff (rs : list RecordTExp) (cs : list CaseExp) :
  (Nat.eqb (length rs) (length cs) && alignedClauses rs cs) = true
  <-> map recordShape rs = map clauseShape cs.
Proof.
  unfold alignedClauses. revert cs.
  induction rs as [|r rs IH]; intros [|c cs]; simpl; try (split; discriminate).
  - tauto.
  - specialize (IH cs). rewrite andb_true_iff in IH.
    rewrite !andb_true_iff, String.eqb_eq, !Nat.eqb_eq.
    unfold recordShape at 1, clauseShape at 1. split.
    + intros (Hlen & (Hname & Hcount) & Hrest). f_equal; [congruence|].
      apply IH. rewrite Nat.eqb_eq. tauto.
    + intros [= Hname Hcount Hrest]. apply IH in Hrest as [Hlen Hrest].
      apply Nat.eqb_eq in Hlen. tauto.
Qed.

Section TypeCaseExactness.

Context {host : Host}.

Variables (tc : TypeCaseExp) (p : Program) (u : UserDefinedTExp).

(** The type-case dispatches on the union [u]. *)
Hypothesis dispatch_on_u : getUserDefinedTypeByName (typeName tc) p = Ok u.


Lemma checkTypeCase_after_cover (t : TExp) :
  checkCoverType (makeUserDefinedNameTExp (typeName tc)
                  :: map (fun c : CaseExp => makeUserDefinedNameTExp (typeName c)) (cases tc)) p
  = Ok t ->
  fst (checkTypeCase tc p)
  = if Nat.eqb (length (sortedRecords u)) (length (sortedCases tc))
       && alignedClauses (sortedRecords u) (sortedCases tc)
    then Ok true else Failure "Invalid type-case".
Proof.
  intros Hcover. unfold checkTypeCase. rewrite Hcover.
  rewrite (@checkCoverType_union_name host p u (typeName tc) dispatch_on_u _ t Hcover).
  cbn [typeNameOf]. rewrite dispatch_on_u. reflexivity.
Qed.

Lemma checkTypeCase_result :
  fst (checkTypeCase tc p) = Ok true
  \/ exists m, fst (checkTypeCase tc p) = Failure m.
Proof.
  destruct (checkCoverType
              (makeUserDefinedNameTExp (typeName tc)
               :: map (fun c : CaseExp => makeUserDefinedNameTExp (typeName c)) (cases tc)) p)
    as [t|m] eqn:Hcover.
  - rewrite (checkTypeCase_after_cover Hcover).
    destruct (_ && _); eauto.
  - right. exists m. unfold checkTypeCase. rewrite Hcover. reflexivity.
Qed.

Lemma sorted_shapes_match :
  map recordShape (sortedRecords u) = map clauseShape (sortedCases tc) -> clausesMatch u tc.
Proof.
  unfold clausesMatch, sortedRecords, sortedCases. intros Heq.
  rewrite <- (Permutation_sort (byName (fun r : RecordTExp => typeName r)) (records u)).
  rewrite <- (Permutation_sort (byName (fun c : CaseExp => typeName c)) (cases tc)).
  rewrite Heq. reflexivity.
Qed.

Lemma checkTypeCase_success_matches :
  fst (checkTypeCase tc p) = Ok true -> clausesMatch u tc.
Proof.
  intros Hok.
  destruct (checkCoverType
              (makeUserDefinedNameTExp (typeName tc)
               :: map (fun c : CaseExp => makeUserDefinedNameTExp (typeName c)) (cases tc)) p)
    as [t|m] eqn:Hcover.
  - rewrite (checkTypeCase_after_cover Hcover) in Hok.
    destruct (_ && _) eqn:Haligned; [|discriminate].
    apply sorted_shapes_match, aligned_iff, Haligned.
  - unfold checkTypeCase in Hok. rewrite Hcover in Hok. discriminate.
Qed.

(** No record of the union is named like another type definition. *)
Hypothesis record_names_free :
  forall r, In r (records u) ->
            typeName r = typeName tc
            \/ isFailure (getUserDefinedTypeByName (typeName r) p) = true.

Lemma clauses_within_cover :
  incl (map (fun c : CaseExp => typeName c) (cases tc))
       (map (fun r : RecordTExp => typeName r) (records u)) ->
  checkCoverType (makeUserDefinedNameTExp (typeName tc)
                  :: map (fun c : CaseExp => makeUserDefinedNameTExp (typeName c)) (cases tc)) p
  = Ok (UserDefinedNameTExp (typeName tc)).
Proof.
  intros Hincl.
  rewrite <- (map_map (fun c : CaseExp => typeName c) makeUserDefinedNameTExp).
  apply (@checkCoverType_cases host p u (typeName tc) dispatch_on_u).
  intros c Hc. apply Hincl, in_map_iff in Hc as (r & <- & Hr).
  pose proof dispatch_on_u as Hu. apply getItemByName_name in Hu as [Hname _].
  rewrite <- Hname. apply getParentsOfName_case; trivial.
  - rewrite Hname. exact dispatch_on_u.
  - rewrite Hname. apply record_names_free, Hr.
Qed.

Lemma clausesMatch_names :
  clausesMatch u tc ->
  Permutation (map (fun r : RecordTExp => typeName r) (records u))
              (map (fun c : CaseExp => typeName c) (cases tc)).
Proof.
  unfold clausesMatch. intros Hperm. apply (Permutation_map fst) in Hperm.
  rewrite !map_map in Hperm. exact Hperm.
Qed.

(** [localeCompare] is a total order on the names of the union's
    records, and records of the union that share a name have the same
    number of fields. *)
Hypothesis record_names_ordered :
  totalOrderOn (map (fun r : RecordTExp => typeName r) (records u)).
Hypothesis same_name_same_arity : sameNameSameArity u.

Lemma matching_shapes_sort_alike :
  clausesMatch u tc -> map recordShape (sortedRecords u) = map clauseShape (sortedCases tc).
Proof.
  intros Hmatch. unfold sortedRecords, sortedCases.
  rewrite (sort_map recordShape (byName (fun r : RecordTExp => typeName r))
                    (byName (@fst string nat)) (records u)) by reflexivity.
  rewrite (sort_map clauseShape (byName (fun c : CaseExp => typeName c))
                    (byName (@fst string nat)) (cases tc)) by reflexivity.
  apply (@sort_canonical host (map (fun r : RecordTExp => typeName r) (records u))
           record_names_ordered (string * nat)%type (@fst string nat)); trivial.
  - apply Forall_forall. intros s Hs. apply in_map_iff in Hs as (r & <- & Hr).
    apply (in_map (fun r : RecordTExp => typeName r)), Hr.
  - intros a b Ha Hb Hkey.
    apply in_map_iff in Ha as (r & <- & Hr). apply in_map_iff in Hb as (r' & <- & Hr').
    unfold recordShape in *. simpl in Hkey.
    rewrite Hkey, (same_name_same_arity r r' Hr Hr' Hkey). reflexivity.
Qed.

(** C3, as the code has it: on a union none of whose record names is
    the name of another type definition, whose records of the same
    name have the same number of fields, and whose record names
    [localeCompare] orders totally, [checkTypeCase] succeeds exactly
    when the clauses are, in some order, one clause per record with as
    many variables as the record has fields; otherwise it fails, and
    with 'Invalid type-case' when every clause names a record of the
    union. *)
Theorem checkTypeCase_exact :
  (fst (checkTypeCase tc p) = Ok true <-> clausesMatch u tc)
  /\ (~ clausesMatch u tc -> isFailure (fst (checkTypeCase tc p)) = true)
  /\ (incl (map (fun c : CaseExp => typeName c) (cases tc))
           (map (fun r : RecordTExp => typeName r) (records u)) ->
      ~ clausesMatch u tc ->
      fst (checkTypeCase tc p) = Failure "Invalid type-case")
  /\ (forall c, In c (cases tc) ->
                ~ In (typeName c) (map (fun r : RecordTExp => typeName r) (records u)) ->
                isFailure (fst (checkTypeCase tc p)) = true).
Proof.
  assert (Hfails : ~ clausesMatch u tc -> isFailure (fst (checkTypeCase tc p)) = true).
  { intros Hno. destruct checkTypeCase_result as [Hok|[m Hm]].
    - elim Hno. apply checkTypeCase_success_matches, Hok.
    - rewrite Hm. reflexivity. }
  split; [split|split; [exact Hfails|split]].
  - apply checkTypeCase_success_matches.
  - intros Hmatch.
    assert (Hincl : incl (map (fun c : CaseExp => typeName c) (cases tc))
                         (map (fun r : RecordTExp => typeName r) (records u))).
    { intros x Hx. apply (Permutation_in x (Permutation_sym (clausesMatch_names Hmatch))), Hx. }
    rewrite (checkTypeCase_after_cover (clauses_within_cover Hincl)).
    replace (_ && _) with true; trivial.
    symmetry. apply aligned_iff, matching_shapes_sort_alike, Hmatch.
  - intros Hincl Hno.
    rewrite (checkTypeCase_after_cover (clauses_within_cover Hincl)).
    destruct (_ && _) eqn:Haligned; trivial.
    elim Hno. apply sorted_shapes_match, aligned_iff, Haligned.
  - intros c Hc Hforeign. apply Hfails. intros Hmatch. apply Hforeign.
    apply (Permutation_in _ (Permutation_sym (clausesMatch_names Hmatch))).
    apply (in_map (fun c : CaseExp => typeName c)), Hc.
Qed.

End TypeCaseExactness.

(** ** The example host orders names totally *)

Module StringOrder := OrderedTypeFacts String_as_OT.

Lemma example_compare_eq (a b : string) : String_as_OT.compare a b = Eq -> a = b.
Proof. apply StringOrder.compare_eq_iff. Qed.

Lemma example_compare_antisym (a b : string) :
  String_as_OT.compare a b = CompOpp (String_as_OT.compare b a).
Proof. apply StringOrder.compare_antisym. Qed.

Lemma example_compare_trans (a b c : string) :
  String_as_OT.compare a b <> Gt -> String_as_OT.compare b c <> Gt ->
  String_as_OT.compare a c <> Gt.
Proof.
  rewrite !StringOrder.compare_gt_iff. intros Hab Hbc Hac.
  destruct (String_as_OT.compare_spec a b) as [H1|H1|H1]; [hnf in H1; subst b; tauto| |tauto].
  destruct (String_as_OT.compare_spec b c) as [H2|H2|H2]; [hnf in H2; subst c| |tauto].
  - exact (StringOrder.lt_irrefl (StringOrder.lt_trans Hac H1)).
  - exact (StringOrder.lt_irrefl (StringOrder.lt_trans Hac (StringOrder.lt_trans H1 H2))).
Qed.

Lemma example_totalOrderOn (p : Program) (names : list string) :
  @totalOrderOn (exampleHost p) names.
Proof.
  repeat split; intros.
  - apply example_compare_eq. assumption.
  - apply example_compare_antisym.
  - eapply example_compare_trans; eassumption.
Qed.

(** The type-case on shape with the clauses square, circle. *)
Lemma checkTypeCase_exact_witness :
  (fst (@checkTypeCase (exampleHost shapeProgram) shapeCases shapeProgram) = Ok true
   <-> clausesMatch shape shapeCases)
  /\ (~ clausesMatch shape shapeCases ->
      isFailure (fst (@checkTypeCase (exampleHost shapeProgram) shapeCases shapeProgram)) = true)
  /\ (incl (map (fun c : CaseExp => typeName c) (cases shapeCases))
           (map (fun r : RecordTExp => typeName r) (records shape)) ->
      ~ clausesMatch shape shapeCases ->
      fst (@checkTypeCase (exampleHost shapeProgram) shapeCases shapeProgram)
      = Failure "Invalid type-case")
  /\ (forall c, In c (cases shapeCases) ->
                ~ In (typeName c) (map (fun r : RecordTExp => typeName r) (records shape)) ->
                isFailure (fst (@checkTypeCase (exampleHost shapeProgram) shapeCases shapeProgram))
                = true).
Proof.
  apply (@checkTypeCase_exact (exampleHost shapeProgram) shapeCases shapeProgram shape).
  - reflexivity.
  - intros r [<-|[<-|[]]]; right; reflexivity.
  - apply example_totalOrderOn.
  - intros r r' [<-|[<-|[]]] [<-|[<-|[]]]; simpl; intros E; try reflexivity; discriminate.
Defined.

(** A union that declares the record r twice with the same fields
    meets the conditions, and its two clauses for r are accepted. *)
Example checkTypeCase_alike_records :
  sameNameSameArity alikeR
  /\ clausesMatch alikeR alikeCases
  /\ fst (@checkTypeCase (exampleHost alikeProgram) alikeCases alikeProgram) = Ok true.
Proof.
  split; [|split; [apply Permutation_refl | reflexivity]].
  intros r r' [<-|[<-|[]]] [<-|[<-|[]]] _; reflexivity.
Qed.


Example checkTypeCase_proper_subset :
  fst (@checkTypeCase (exampleHost shapeProgram) circleOnly shapeProgram)
  = Failure "Invalid type-case".
Proof. reflexivity. Qed.

(** Two type-cases on which C3 as stated fails.  The clause of
    [shadowCases] is the one record of the union u, with the right
    number of variables, and [checkTypeCase] refuses it, not with
    'Invalid type-case': the record's name is also the name of a type
    definition, whose cover does not meet that of u.  The clauses of
    [twiceCases] are one per record of the union w, with the right
    numbers of variables, and are refused: the two records share a
    name and differ in their number of fields, and the sort keeps
    records and clauses of one name in the order they were written. *)
Lemma checkTypeCase_exact_counterexample :
  (getUserDefinedTypeByName (typeName shadowCases) shadowProgram = Ok unionU
   /\ clausesMatch unionU shadowCases
   /\ isFailure (fst (@checkTypeCase (exampleHost shadowProgram) shadowCases shadowProgram)) = true
   /\ fst (@checkTypeCase (exampleHost shadowProgram) shadowCases shadowProgram)
      <> Failure "Invalid type-case")
  /\ (getUserDefinedTypeByName (typeName twiceCases) twiceProgram = Ok twiceR
      /\ clausesMatch twiceR twiceCases
      /\ fst (@checkTypeCase (exampleHost twiceProgram) twiceCases twiceProgram)
         = Failure "Invalid type-case").
Proof.
  split.
  - split; [reflexivity|]. split; [apply Permutation_refl|]. split; [reflexivity|].
    vm_compute. discriminate.
  - split; [reflexivity|]. split; [apply perm_swap | reflexivity].
Qed.

(** Records of the same name are aligned in declaration order: the
    clauses of [twiceCases] are one per record, and are refused. *)
Example checkTypeCase_same_name_records :
  clausesMatch twiceR twiceCases
  /\ fst (@checkTypeCase (exampleHost twiceProgram) twiceCases twiceProgram)
     = Failure "Invalid type-case".
Proof.
  split; [apply perm_swap | reflexivity].
Qed.

Example checkTypeCase_foreign_clause :
  isFailure (fst (@checkTypeCase (exampleHost foreignProgram) foreignCases foreignProgram))
  = true.
Proof. reflexivity. Qed.

(** * Further properties of the checker *)

Unset Implicit Arguments.

(** ** Program introspection *)

Lemma iterTypeDefinitions_flat_map (tail : list Exp) :
  forall head, iterTypeDefinitions head tail = flat_map typeDefinitionOf (head :: tail).
Proof.
  induction tail as [|e tail IH]; intros head.
  - destruct head; reflexivity.
  - cbn [iterTypeDefinitions]. rewrite IH. destruct head; reflexivity.
Qed.

Lemma getTypeDefinitions_flat_map (p : Program) :
  getTypeDefinitions p = flat_map typeDefinitionOf (exps p).
Proof.
  unfold getTypeDefinitions. destruct (exps p) as [|e es]; trivial.
  apply iterTypeDefinitions_flat_map.
Qed.

(** X1: [getTypeDefinitions] gives the type definitions of the
    top-level define-type expressions, in program order, and nothing
    else. *)
Theorem getTypeDefinitions_top_level (p : Program) :
  getTypeDefinitions p = flat_map typeDefinitionOf (exps p).
Proof. apply getTypeDefinitions_flat_map. Qed.

Lemma iterDefinitions_flat_map (tail : list Exp) :
  forall head, iterDefinitions head tail = flat_map definitionOf (head :: tail).
Proof.
  induction tail as [|e tail IH]; intros head.
  - destruct head; reflexivity.
  - cbn [iterDefinitions]. rewrite IH. destruct head; reflexivity.
Qed.

(** [getDefinitions] likewise gives the top-level define expressions,
    in program order, and nothing else. *)
Lemma getDefinitions_flat_map (p : Program) :
  getDefinitions p = flat_map definitionOf (exps p).
Proof.
  unfold getDefinitions. destruct (exps p) as [|e es]; trivial.
  apply iterDefinitions_flat_map.
Qed.

Lemma getItemByName_first {T} `{HasTypeName T} (n : string) (items : list T) (x : T) :
  getItemByName n items = Ok x <->
  exists l1 l2, items = l1 ++ x :: l2 /\ typeName x = n /\ noneNamed n l1.
Proof.
  unfold noneNamed. induction items as [|y items IH]; simpl.
  - split; [discriminate|]. intros (l1 & l2 & Heq & _). destruct l1; discriminate.
  - destruct (String.eqb (typeName y) n) eqn:E.
    + apply String.eqb_eq in E. split.
      * intros [= <-]. exists [], items. auto.
      * intros (l1 & l2 & Heq & Hn & Hnone). destruct l1 as [|z l1].
        -- injection Heq as ->. reflexivity.
        -- injection Heq as -> _. inversion Hnone. congruence.
    + apply String.eqb_neq in E. rewrite IH. split.
      * intros (l1 & l2 & -> & Hn & Hnone). exists (y :: l1), l2. auto.
      * intros (l1 & l2 & Heq & Hn & Hnone). destruct l1 as [|z l1].
        -- injection Heq as -> _. congruence.
        -- injection Heq as -> ->. inversion Hnone. eauto.
Qed.

Lemma getItemByName_fails {T} `{HasTypeName T} (n : string) (items : list T) :
  (isFailure (getItemByName n items) = true <-> noneNamed n items)
  /\ (forall m, getItemByName n items = Failure m -> m = (n ++ " not found")%string).
Proof.
  unfold noneNamed. induction items as [|y items [IH1 IH2]]; simpl.
  - split; [split; auto|]. intros m [= <-]. reflexivity.
  - destruct (String.eqb (typeName y) n) eqn:E.
    + apply String.eqb_eq in E. split; [split; [discriminate|]|discriminate].
      intros Hnone. inversion Hnone. congruence.
    + apply String.eqb_neq in E. split; [|exact IH2].
      rewrite IH1. split; [auto|]. intros Hnone. inversion Hnone. assumption.
Qed.

(** X2: a lookup by name returns the first item with that name. *)
Theorem getItemByName_first_match {T} `{HasTypeName T} (n : string) (items : list T) (x : T) :
  getItemByName n items = Ok x <->
  exists l1 l2, items = l1 ++ x :: l2 /\ typeName x = n /\ noneNamed n l1.
Proof. apply getItemByName_first. Qed.

(** X3: a lookup by name fails exactly when no item has the name, and
    its message is the name followed by " not found". *)
Theorem getItemByName_not_found {T} `{HasTypeName T} (n : string) (items : list T) :
  (isFailure (getItemByName n items) = true <-> noneNamed n items)
  /\ (forall m, getItemByName n items = Failure m -> m = (n ++ " not found")%string).
Proof. apply getItemByName_fails. Qed.

(** X4: a name resolves to a type definition before a record: with a
    type definition of that name declared, [getTypeByName] gives a type
    definition; it fails exactly when neither a type definition nor a
    record has the name. *)
Theorem getTypeByName_unions_first (n : string) (p : Program) :
  (forall u, In u (getTypeDefinitions p) -> typeName u = n ->
             exists u', getTypeByName n p = Ok (TUserDefined u') /\ typeName u' = n)
  /\ (isFailure (getTypeByName n p) = true <->
      noneNamed n (getTypeDefinitions p) /\ noneNamed n (getRecords p))
  /\ (forall m, getTypeByName n p = Failure m -> m = (n ++ " not found")%string).
Proof.
  unfold getTypeByName, getUserDefinedTypeByName, getRecordByName.
  destruct (getItemByName_fails n (getTypeDefinitions p)) as [Hu _].
  destruct (getItemByName_fails n (getRecords p)) as [Hr Hmsg].
  split; [|split].
  - intros u Hin Hname.
    destruct (@getItemByName_found _ _ n (getTypeDefinitions p) u Hin Hname) as [u' Hu'].
    rewrite Hu'. simpl. exists u'. split; trivial.
    apply getItemByName_name in Hu'. tauto.
  - destruct (getItemByName n (getTypeDefinitions p)) as [u|m] eqn:Eu; simpl.
    + split; [discriminate|]. intros [Hnone _]. apply Hu in Hnone. discriminate.
    + destruct (getItemByName n (getRecords p)) as [r|m'] eqn:Er; simpl.
      * split; [discriminate|]. intros [_ Hnone]. apply Hr in Hnone. discriminate.
      * split; [|reflexivity]. intros _. split; [apply Hu | apply Hr]; reflexivity.
  - destruct (getItemByName n (getTypeDefinitions p)) as [u|m'] eqn:Eu; simpl; [discriminate|].
    destruct (getItemByName n (getRecords p)) as [r|m''] eqn:Er; simpl; [discriminate|].
    intros m [= <-]. apply Hmsg. reflexivity.
Qed.

(** ** Covers, in general *)

Lemma includesEq_fold_intersection (ls : list (list TExp)) :
  forall acc x,
    includesEq x (fold_left intersection ls acc)
    = includesEq x acc && forallb (includesEq x) ls.
Proof.
  induction ls as [|l ls IH]; intros acc x; simpl.
  - rewrite andb_true_r. reflexivity.
  - rewrite IH, includesEq_intersection, andb_assoc. reflexivity.
Qed.

Lemma includesEq_coverTypes (t : TExp) (ts : list TExp) (p : Program) (x : TExp) :
  includesEq x (coverTypes (t :: ts) p)
  = forallb (fun t' => includesEq x (getParentsType t' p)) (t :: ts).
Proof.
  unfold coverTypes, reduce. cbn [map forallb].
  rewrite includesEq_fold_intersection. f_equal.
  induction ts as [|t' ts IH]; simpl; trivial. rewrite IH. reflexivity.
Qed.

(** X5: the cover of a non-empty list of types holds exactly the types
    that are, up to structural equality, among the parents of every
    type of the list. *)
Theorem coverTypes_is_intersection (t : TExp) (ts : list TExp) (p : Program) (x : TExp) :
  includesEq x (coverTypes (t :: ts) p)
  = forallb (fun t' => includesEq x (getParentsType t' p)) (t :: ts).
Proof. apply includesEq_coverTypes. Qed.

Lemma forallb_Permutation {A} (f : A -> bool) (l l' : list A) :
  Permutation l l' -> forallb f l = forallb f l'.
Proof.
  induction 1; simpl; try congruence.
  destruct (f x), (f y); reflexivity.
Qed.

(** X6: the cover does not depend on the order of the types it is
    computed from. *)
Theorem coverTypes_permutation (types types' : list TExp) (p : Program) :
  Permutation types types' -> sameSet (coverTypes types p) (coverTypes types' p).
Proof.
  intros Hperm x.
  destruct types as [|t ts].
  - apply Permutation_nil in Hperm. subst. reflexivity.
  - destruct types' as [|t' ts'].
    + apply Permutation_sym, Permutation_nil in Hperm. discriminate.
    + rewrite !includesEq_coverTypes. apply forallb_Permutation, Hperm.
Qed.

Lemma coverTypes_permutation_witness :
  sameSet (coverTypes [TRecord circle; UserDefinedNameTExp "shape"; TRecord square] shapeProgram)
          (coverTypes [UserDefinedNameTExp "shape"; TRecord square; TRecord circle] shapeProgram).
Proof.
  apply coverTypes_permutation.
  apply Permutation_cons_append with (l := [UserDefinedNameTExp "shape"; TRecord square]).
Defined.

Lemma coverTypes_nonempty_member (types : list TExp) (p : Program) (y : TExp) (l : list TExp) :
  coverTypes types p = y :: l ->
  forall t, In t types -> includesEq y (getParentsType t p) = true.
Proof.
  intros Hcover t Ht. destruct types as [|t0 ts]; [contradiction|].
  assert (Hy : includesEq y (coverTypes (t0 :: ts) p) = true).
  { rewrite Hcover. apply includesEq_In. simpl. auto. }
  rewrite includesEq_coverTypes in Hy.
  rewrite forallb_forall in Hy. apply Hy, Ht.
Qed.

(** X7: a type without parents (a quoted literal's type, a type
    variable, a name that resolves to nothing) has no cover with
    anything: [checkCoverType] fails on every list that holds one. *)
Theorem checkCoverType_without_parents {host : Host} (types : list TExp) (p : Program) (t : TExp) :
  In t types -> getParentsType t p = [] ->
  isFailure (checkCoverType types p) = true.
Proof.
  intros Ht Hnone. unfold checkCoverType.
  destruct (coverTypes types p) as [|y l] eqn:Hcover; trivial.
  pose proof (coverTypes_nonempty_member types p y l Hcover t Ht) as Hy.
  rewrite Hnone in Hy. discriminate.
Qed.

Lemma checkCoverType_without_parents_witness :
  isFailure (@checkCoverType (exampleHost shapeProgram) [LitTExp; LitTExp] shapeProgram) = true.
Proof.
  apply (@checkCoverType_without_parents (exampleHost shapeProgram)
           [LitTExp; LitTExp] shapeProgram LitTExp).
  - simpl. auto.
  - reflexivity.
Defined.

(** ** The most specific type *)

Lemma mostSpecificType_fold_In (p : Program) (all : list TExp) :
  forall l acc, In acc all -> incl l all ->
    In (fold_left (fun min element => if isSubType element min p then element else min) l acc) all.
Proof.
  induction l as [|x l IH]; intros acc Hacc Hincl; simpl; trivial.
  apply IH.
  - destruct (isSubType x acc p); [apply Hincl; simpl; auto | exact Hacc].
  - intros y Hy. apply Hincl. simpl. auto.
Qed.

Lemma mostSpecificType_In (t : TExp) (ts : list TExp) (p : Program) :
  In (mostSpecificType (t :: ts) p) (t :: ts).
Proof.
  unfold mostSpecificType, reduce. cbn [fold_left].
  replace (isSubType t makeAnyTExp p) with true by reflexivity.
  apply (mostSpecificType_fold_In p (t :: ts)); [simpl; auto|].
  intros y Hy. simpl. auto.
Qed.

(** X8: the most specific type of an empty list is Any; that of a
    non-empty list is one of its members. *)
Theorem mostSpecificType_member (p : Program) :
  mostSpecificType [] p = AnyTExp
  /\ forall t ts, In (mostSpecificType (t :: ts) p) (t :: ts).
Proof.
  split; [reflexivity|]. intros t ts. apply mostSpecificType_In.
Qed.

Lemma isSubType_from_plain (te1 te2 : TExp) (p : Program) :
  recordOrName te1 = false -> te2 <> AnyTExp -> isSubType te1 te2 p = false.
Proof.
  intros H1 H2. unfold isSubType.
  destruct te2; try congruence; simpl;
    try (destruct (getUserDefinedTypeByName name p); simpl);
    destruct te1; try discriminate; reflexivity.
Qed.

(** X9: a type that is neither a record nor a name never replaces a
    minimum other than Any: the most specific type of a list whose
    head is not Any and whose other members are neither records nor
    names is the head (so that of a record followed by number is the
    record). *)
Theorem mostSpecificType_head (t : TExp) (ts : list TExp) (p : Program) :
  t <> AnyTExp ->
  (forall x, In x ts -> recordOrName x = false) ->
  mostSpecificType (t :: ts) p = t.
Proof.
  intros Ht Hts. unfold mostSpecificType, reduce. cbn [fold_left].
  replace (isSubType t makeAnyTExp p) with true by reflexivity.
  induction ts as [|x ts IH]; cbn [fold_left]; trivial.
  rewrite isSubType_from_plain; trivial.
  - apply IH. intros y Hy. apply Hts. simpl. auto.
  - apply Hts. simpl. auto.
Qed.

Lemma mostSpecificType_head_witness :
  mostSpecificType [TRecord circle; NumTExp] shapeProgram = TRecord circle.
Proof.
  apply mostSpecificType_head.
  - discriminate.
  - intros x [<-|[]]. reflexivity.
Defined.

(** ** Two records of a union *)

Lemma getParentsOfName_record (n : string) (p : Program) (r : RecordTExp) :
  isFailure (getUserDefinedTypeByName n p) = true ->
  getRecordByName n p = Ok r ->
  getParentsOfName n p
  = UserDefinedNameTExp n
    :: map (fun ud : UserDefinedTExp => UserDefinedNameTExp (typeName ud))
           (getRecordParents n p).
Proof.
  intros Hu Hr. unfold getParentsOfName.
  destruct (getUserDefinedTypeByName n p); [discriminate|]. simpl.
  rewrite Hr. simpl. apply getItemByName_name in Hr as [-> _]. reflexivity.
Qed.

Lemma getRecordParents_In (n : string) (p : Program) (v : UserDefinedTExp) :
  In v (getRecordParents n p) <-> In v (getTypeDefinitions p) /\ listsRecord n v.
Proof.
  unfold getRecordParents, listsRecord, includesString.
  rewrite filter_In, existsb_exists. split.
  - intros [Hv (m & Hm & E)]. apply String.eqb_eq in E. subst m. auto.
  - intros [Hv Hn]. split; trivial. exists n. split; trivial. apply String.eqb_refl.
Qed.

Lemma includesEq_names (x : TExp) (names : list string) :
  includesEq x (map UserDefinedNameTExp names) = true ->
  exists m, x = UserDefinedNameTExp m /\ In m names.
Proof.
  unfold includesEq. rewrite existsb_exists. intros (y & Hy & E).
  apply in_map_iff in Hy as (m & <- & Hm). apply equals_name in E. eauto.
Qed.

Lemma NoDup_map_same_key {A B} (f : A -> B) (l : list A) (x y : A) :
  NoDup (map f l) -> In x l -> In y l -> f x = f y -> x = y.
Proof.
  induction l as [|z l IH]; simpl; [tauto|].
  intros Hnd Hx Hy E. apply NoDup_cons_iff in Hnd as [Hz Hnd].
  destruct Hx as [->|Hx], Hy as [->|Hy]; trivial.
  - elim Hz. rewrite E. apply in_map, Hy.
  - elim Hz. rewrite <- E. apply in_map, Hx.
  - apply IH; trivial.
Qed.

Section TwoRecords.

Context {host : Host}.

Variables (p : Program) (r1 r2 : RecordTExp) (u : UserDefinedTExp).

(** The two record names resolve to records, not to type definitions,
    and differ; the union [u] lists both. *)
Hypothesis r1_not_union : isFailure (getUserDefinedTypeByName (typeName r1) p) = true.
Hypothesis r2_not_union : isFailure (getUserDefinedTypeByName (typeName r2) p) = true.
Hypothesis r1_declared : exists r, getRecordByName (typeName r1) p = Ok r.
Hypothesis r2_declared : exists r, getRecordByName (typeName r2) p = Ok r.
Hypothesis names_differ : typeName r1 <> typeName r2.
Hypothesis u_declared : In u (getTypeDefinitions p).
Hypothesis u_lists_r1 : listsRecord (typeName r1) u.
Hypothesis u_lists_r2 : listsRecord (typeName r2) u.

Lemma parents_of_record_names (r : RecordTExp) (x : TExp) :
  isFailure (getUserDefinedTypeByName (typeName r) p) = true ->
  (exists r', getRecordByName (typeName r) p = Ok r') ->
  includesEq x (getParentsOfName (typeName r) p) = true ->
  x = UserDefinedNameTExp (typeName r)
  \/ exists v, x = UserDefinedNameTExp (typeName v)
               /\ In v (getTypeDefinitions p) /\ listsRecord (typeName r) v.
Proof.
  intros Hru [r' Hr'] Hx.
  rewrite (getParentsOfName_record (typeName r) p r' Hru Hr') in Hx.
  change (includesEq x (UserDefinedNameTExp (typeName r)
            :: map (fun ud : UserDefinedTExp => UserDefinedNameTExp (typeName ud))
                   (getRecordParents (typeName r) p)))
    with (equals x (UserDefinedNameTExp (typeName r))
          || includesEq x (map (fun ud : UserDefinedTExp => UserDefinedNameTExp (typeName ud))
                               (getRecordParents (typeName r) p))) in Hx.
  apply orb_true_iff in Hx as [Hx|Hx].
  - left. apply equals_name, Hx.
  - right. rewrite <- (map_map (fun ud : UserDefinedTExp => typeName ud) UserDefinedNameTExp) in Hx.
    apply includesEq_names in Hx as (m & -> & Hm).
    apply in_map_iff in Hm as (v & <- & Hv). apply getRecordParents_In in Hv.
    exists v. tauto.
Qed.

Lemma union_name_is_declared (v : UserDefinedTExp) :
  In v (getTypeDefinitions p) ->
  isFailure (getUserDefinedTypeByName (typeName v) p) = false.
Proof.
  intros Hv.
  destruct (@getItemByName_found _ _ (typeName v) (getTypeDefinitions p) v Hv eq_refl)
    as [v' Hv'].
  unfold getUserDefinedTypeByName. rewrite Hv'. reflexivity.
Qed.

(** X10: two records of different names that one union lists have a
    cover, and [checkCoverType] gives a name [m] such that a type
    definition named [m] lists a record named like the first and a
    type definition named [m] lists a record named like the second;
    when the type definitions of the program have distinct names, one
    type definition named [m] lists both (an if or a type-case whose
    branches are two cases of a union then has the type of a union of
    both). *)
Theorem checkCoverType_records_of_a_union :
  exists m,
    checkCoverType [TRecord r1; TRecord r2] p = Ok (UserDefinedNameTExp m)
    /\ (exists v, In v (getTypeDefinitions p) /\ typeName v = m /\ listsRecord (typeName r1) v)
    /\ (exists v, In v (getTypeDefinitions p) /\ typeName v = m /\ listsRecord (typeName r2) v)
    /\ (NoDup (map (fun v : UserDefinedTExp => typeName v) (getTypeDefinitions p)) ->
        exists v, In v (getTypeDefinitions p) /\ typeName v = m
                  /\ listsRecord (typeName r1) v /\ listsRecord (typeName r2) v).
Proof.
  destruct r1_declared as [r1' Hr1]. destruct r2_declared as [r2' Hr2].
  assert (Hin : forall n r, isFailure (getUserDefinedTypeByName n p) = true ->
                            getRecordByName n p = Ok r -> listsRecord n u ->
                            includesEq (UserDefinedNameTExp (typeName u)) (getParentsOfName n p) = true).
  { intros n r Hnu Hr Hl. rewrite (getParentsOfName_record n p r Hnu Hr).
    apply includesEq_In. right.
    apply (in_map (fun ud : UserDefinedTExp => UserDefinedNameTExp (typeName ud))).
    apply getRecordParents_In. auto. }
  assert (Hcover : includesEq (UserDefinedNameTExp (typeName u))
                              (coverTypes [TRecord r1; TRecord r2] p) = true).
  { rewrite includesEq_coverTypes. cbn [forallb getParentsType].
    rewrite (Hin _ r1' r1_not_union Hr1 u_lists_r1), (Hin _ r2' r2_not_union Hr2 u_lists_r2).
    reflexivity. }
  unfold checkCoverType.
  destruct (coverTypes [TRecord r1; TRecord r2] p) as [|y l] eqn:Ecover; [discriminate|].
  pose proof (mostSpecificType_In y l p) as Hmem.
  set (x := mostSpecificType (y :: l) p) in *.
  assert (Hx : includesEq x (getParentsOfName (typeName r1) p) = true
               /\ includesEq x (getParentsOfName (typeName r2) p) = true).
  { assert (Hx : includesEq x (coverTypes [TRecord r1; TRecord r2] p) = true)
      by (rewrite Ecover; apply includesEq_In, Hmem).
    rewrite includesEq_coverTypes in Hx. cbn [forallb getParentsType] in Hx.
    rewrite andb_true_r in Hx. apply andb_true_iff in Hx. exact Hx. }
  destruct Hx as [Hx1 Hx2].
  apply (parents_of_record_names r1 x) in Hx1; eauto.
  apply (parents_of_record_names r2 x) in Hx2; eauto.
  destruct Hx1 as [Hx1|(v1 & Hx1 & Hv1 & Hl1)], Hx2 as [Hx2|(v2 & Hx2 & Hv2 & Hl2)].
  - rewrite Hx1 in Hx2. injection Hx2 as E. congruence.
  - rewrite Hx1 in Hx2. injection Hx2 as E.
    pose proof (union_name_is_declared v2 Hv2) as Hd. rewrite <- E in Hd. congruence.
  - rewrite Hx2 in Hx1. injection Hx1 as E.
    pose proof (union_name_is_declared v1 Hv1) as Hd. rewrite <- E in Hd. congruence.
  - rewrite Hx1 in Hx2. injection Hx2 as E.
    exists (typeName v1). split; [rewrite Hx1; reflexivity|]. split; [|split].
    + exists v1. auto.
    + exists v2. auto.
    + intros Hnd. exists v1. repeat split; trivial.
      replace v1 with v2; trivial.
      symmetry. apply (NoDup_map_same_key (fun v : UserDefinedTExp => typeName v)
                         (getTypeDefinitions p) v1 v2 Hnd Hv1 Hv2 E).
Qed.

End TwoRecords.

Lemma checkCoverType_records_of_a_union_witness :
  exists m,
    @checkCoverType (exampleHost shapeProgram) [TRecord circle; TRecord square] shapeProgram
    = Ok (UserDefinedNameTExp m)
    /\ (exists v, In v (getTypeDefinitions shapeProgram) /\ typeName v = m
                  /\ listsRecord (typeName circle) v)
    /\ (exists v, In v (getTypeDefinitions shapeProgram) /\ typeName v = m
                  /\ listsRecord (typeName square) v)
    /\ (NoDup (map (fun v : UserDefinedTExp => typeName v) (getTypeDefinitions shapeProgram)) ->
        exists v, In v (getTypeDefinitions shapeProgram) /\ typeName v = m
                  /\ listsRecord (typeName circle) v /\ listsRecord (typeName square) v).
Proof.
  apply (@checkCoverType_records_of_a_union (exampleHost shapeProgram)
           shapeProgram circle square shape).
  - reflexivity.
  - reflexivity.
  - exists circle. reflexivity.
  - exists square. reflexivity.
  - discriminate.
  - simpl. auto.
  - unfold listsRecord. simpl. auto.
  - unfold listsRecord. simpl. auto.
Defined.

(** With two type definitions of the same name the cover can be a name
    that no single type definition justifies: here it is a, and
    neither definition named a lists both records. *)
Example checkCoverType_homonym_definitions :
  @checkCoverType (exampleHost homonymProgram) [TRecord recordOne; TRecord recordTwo]
     homonymProgram
  = Ok (UserDefinedNameTExp "a")
  /\ forall v, In v (getTypeDefinitions homonymProgram) -> typeName v = "a" ->
               ~ (listsRecord "r1" v /\ listsRecord "r2" v).
Proof.
  split; [reflexivity|].
  intros v [<-|[<-|[<-|[]]]] Hname; try discriminate; unfold listsRecord; simpl;
    intros [H1 H2]; intuition discriminate.
Qed.

(** ** Compatibility *)

Lemma checkEqualType_plain {host : Host}
        (te1 te2 : TExp) (exp : Parsed) (p : Program) :
  plainTarget te2 = true ->
  isOk (checkEqualType te1 te2 exp p) = equals te1 te2.
Proof.
  intros Hplain.
  assert (Hrest : checkDeepEqualType te1 te2 p = false
                  /\ checkDeepEqualType te2 te1 p = false
                  /\ isSubType te1 te2 p = false).
  { destruct te2; try discriminate; repeat split;
      unfold checkDeepEqualType, isSubType; destruct te1; reflexivity. }
  destruct Hrest as (H1 & H2 & H3).
  destruct (checkEqualType_cases te1 te2 exp p) as [[Hok H]|[Hfail H]].
  - rewrite Hok, H1, H2, H3, !orb_false_r in *. simpl. congruence.
  - rewrite H1, H2, H3, !orb_false_r in H. rewrite H.
    destruct (checkEqualType te1 te2 exp p); [discriminate|reflexivity].
Qed.

(** X11: toward a primitive type, a procedure type or a type variable,
    compatibility is structural equality: there is no subtyping between
    procedure types. *)
Theorem checkEqualType_plain_target {host : Host}
        (te1 te2 : TExp) (exp : Parsed) (p : Program) :
  plainTarget te2 = true ->
  isOk (checkEqualType te1 te2 exp p) = equals te1 te2.
Proof. apply checkEqualType_plain. Qed.

(** A procedure on circles is not accepted as a procedure on shapes. *)
Lemma checkEqualType_plain_target_witness :
  isOk (@checkEqualType (exampleHost shapeProgram)
          (ProcTExp [TRecord circle] NumTExp)
          (ProcTExp [UserDefinedNameTExp "shape"] NumTExp)
          (ParsedExp (NumExp 0)) shapeProgram)
  = equals (ProcTExp [TRecord circle] NumTExp)
           (ProcTExp [UserDefinedNameTExp "shape"] NumTExp).
Proof.
  apply (@checkEqualType_plain_target (exampleHost shapeProgram)). reflexivity.
Defined.

(** X12: a name is compatible with the type definition or record it
    resolves to, in both directions. *)
Theorem checkEqualType_name_and_definition {host : Host}
        (n : string) (t : TExp) (exp : Parsed) (p : Program) :
  getTypeByName n p = Ok t ->
  checkEqualType (UserDefinedNameTExp n) t exp p = Ok t
  /\ checkEqualType t (UserDefinedNameTExp n) exp p = Ok (UserDefinedNameTExp n).
Proof.
  intros Hn.
  assert (Hkind : isUserDefinedTExp t || isRecord t = true).
  { unfold getTypeByName in Hn.
    destruct (isFailure (getUserDefinedTypeByName n p)).
    - destruct (getRecordByName n p); simpl in Hn; [injection Hn as <-; reflexivity|discriminate].
    - destruct (getUserDefinedTypeByName n p); simpl in Hn;
        [injection Hn as <-; reflexivity|discriminate]. }
  assert (Hdeep : checkDeepEqualType (UserDefinedNameTExp n) t p = true).
  { unfold checkDeepEqualType. rewrite Hkind, Hn. simpl. rewrite equals_refl. reflexivity. }
  split.
  - destruct (checkEqualType_cases (UserDefinedNameTExp n) t exp p) as [[H _]|[_ H]]; trivial.
    rewrite Hdeep, orb_true_r in H. discriminate.
  - destruct (checkEqualType_cases t (UserDefinedNameTExp n) exp p) as [[H _]|[_ H]]; trivial.
    rewrite Hdeep, orb_true_r in H. discriminate.
Qed.

Lemma checkEqualType_name_and_definition_witness :
  @checkEqualType (exampleHost shapeProgram) (UserDefinedNameTExp "circle") (TRecord circle)
     (ParsedExp (NumExp 0)) shapeProgram = Ok (TRecord circle)
  /\ @checkEqualType (exampleHost shapeProgram) (TRecord circle) (UserDefinedNameTExp "circle")
       (ParsedExp (NumExp 0)) shapeProgram = Ok (UserDefinedNameTExp "circle").
Proof.
  apply (@checkEqualType_name_and_definition (exampleHost shapeProgram)). reflexivity.
Defined.

(** ** The initial environment *)

Lemma applyFrame_map {A} (f : A -> string) (g : A -> TExp) (items : list A) (v : string) :
  applyFrame (map f items) (map g items) v
  = option_map (fun x => Ok (g x)) (find (fun x => String.eqb (f x) v) items).
Proof.
  induction items as [|x items IH]; simpl; trivial.
  destruct (String.eqb (f x) v); trivial.
Qed.

Lemma applyFrame_app (vars1 : list string) :
  forall texps1 vars2 texps2 v,
    length vars1 = length texps1 ->
    applyFrame (vars1 ++ vars2) (texps1 ++ texps2) v
    = match applyFrame vars1 texps1 v with
      | Some r => Some r
      | None => applyFrame vars2 texps2 v
      end.
Proof.
  induction vars1 as [|x vars1 IH]; intros [|t texps1] vars2 texps2 v Hlen;
    try discriminate; simpl; trivial.
  destruct (String.eqb x v); trivial. apply IH. simpl in Hlen. lia.
Qed.

Lemma applyFrame_absent (vars : list string) :
  forall texps v, ~ In v vars -> applyFrame vars texps v = None.
Proof.
  induction vars as [|x vars IH]; intros texps v Hv; simpl; trivial.
  destruct (String.eqb x v) eqn:E.
  - apply String.eqb_eq in E. elim Hv. simpl. auto.
  - apply IH. intros Hin. apply Hv. simpl. auto.
Qed.

Lemma find_getItemByName {T} `{HasTypeName T} (n : string) (items : list T) :
  find (fun x => String.eqb (typeName x) n) items
  = match getItemByName n items with Ok x => Some x | Failure _ => None end.
Proof.
  induction items as [|x items IH]; simpl; trivial.
  destruct (String.eqb (typeName x) n); trivial.
Qed.

Lemma find_ext {A} (f g : A -> bool) (l : list A) :
  (forall x, f x = g x) -> find f l = find g l.
Proof.
  intros Hfg. induction l as [|x l IH]; simpl; trivial. rewrite Hfg, IH. reflexivity.
Qed.

Lemma make_name_eqb (a b : string) :
  String.eqb ("make-" ++ a) ("make-" ++ b) = String.eqb a b.
Proof. reflexivity. Qed.

(** The initial environment, frame by frame. *)
Lemma initTEnv_frames (p : Program) :
  initTEnv p
  = makeExtendTEnv
      (recordFrameNames p)
      ((map TRecord (getRecords p) ++ map (fun _ : RecordTExp => predicateTExp) (getRecords p))
       ++ map constructorTExp (getRecords p))
      (makeExtendTEnv
         (typeFrameNames p)
         (map TUserDefined (getTypeDefinitions p)
          ++ map (fun _ : UserDefinedTExp => predicateTExp) (getTypeDefinitions p))
         (makeExtendTEnv
            (map (fun def : VarDecl * Exp => var (fst def)) (getDefinitions p))
            (map (fun def : VarDecl * Exp => texp (fst def)) (getDefinitions p))
            makeEmptyTEnv)).
Proof.
  unfold initTEnv, extendRecordsEnv, extendDefineTypesEnv, extendDefineEnv,
    recordFrameNames, typeFrameNames.
  cbv zeta. rewrite !map_map. reflexivity.
Qed.

Lemma records_frame_lookup (p : Program) (v : string) :
  applyFrame
    (recordFrameNames p)
    ((map TRecord (getRecords p) ++ map (fun _ : RecordTExp => predicateTExp) (getRecords p))
     ++ map constructorTExp (getRecords p)) v
  = match applyFrame (map (fun r : RecordTExp => typeName r) (getRecords p))
                     (map TRecord (getRecords p)) v with
    | Some r => Some r
    | None =>
        match applyFrame (map (fun r : RecordTExp => (typeName r ++ "?")%string) (getRecords p))
                         (map (fun _ : RecordTExp => predicateTExp) (getRecords p)) v with
        | Some r => Some r
        | None =>
            applyFrame (map (fun r : RecordTExp => ("make-" ++ typeName r)%string) (getRecords p))
                       (map constructorTExp (getRecords p)) v
        end
    end.
Proof.
  unfold recordFrameNames.
  rewrite applyFrame_app by (rewrite !length_app, !length_map; reflexivity).
  rewrite applyFrame_app by (rewrite !length_map; reflexivity).
  destruct (applyFrame (map (fun r : RecordTExp => typeName r) (getRecords p)) _ v); trivial.
Qed.

(** X13: the initial environment binds the name of every record to the
    record itself, the first declared with that name, whatever else
    carries the name (a type definition, a global variable). *)
Theorem initTEnv_record_name (p : Program) (n : string) (r : RecordTExp) :
  getRecordByName n p = Ok r ->
  applyTEnv (initTEnv p) n = Ok (TRecord r).
Proof.
  intros Hr. rewrite initTEnv_frames. cbn [applyTEnv].
  rewrite records_frame_lookup, applyFrame_map, find_getItemByName.
  unfold getRecordByName in Hr. rewrite Hr. reflexivity.
Qed.

(** The global named circle is hidden by the record circle. *)
Lemma initTEnv_record_name_witness :
  applyTEnv (initTEnv globalsProgram) "circle" = Ok (TRecord circle).
Proof. apply initTEnv_record_name. reflexivity. Defined.

(** X14: the initial environment binds make-n, for the first record
    declared with the name n, to the procedure type from the record's
    field types, in declaration order, to the record, provided make-n
    is not itself the name of a record or of a record's predicate. *)
Theorem initTEnv_constructor (p : Program) (n : string) (r : RecordTExp) :
  getRecordByName n p = Ok r ->
  ~ In ("make-" ++ n)%string
       (map (fun r : RecordTExp => typeName r) (getRecords p)
        ++ map (fun r : RecordTExp => (typeName r ++ "?")%string) (getRecords p)) ->
  applyTEnv (initTEnv p) ("make-" ++ n)
  = Ok (ProcTExp (map te (fields r)) (TRecord r)).
Proof.
  intros Hr Hfree. rewrite initTEnv_frames. cbn [applyTEnv].
  rewrite records_frame_lookup.
  rewrite (applyFrame_absent (map (fun r : RecordTExp => typeName r) (getRecords p)))
    by (intros Hin; apply Hfree, in_or_app; auto).
  rewrite (applyFrame_absent (map (fun r : RecordTExp => (typeName r ++ "?")%string) (getRecords p)))
    by (intros Hin; apply Hfree, in_or_app; auto).
  rewrite applyFrame_map.
  rewrite (find_ext _ (fun x : RecordTExp => String.eqb (typeName x) n))
    by (intros x; apply make_name_eqb).
  rewrite find_getItemByName. unfold getRecordByName in Hr. rewrite Hr. reflexivity.
Qed.

Lemma initTEnv_constructor_witness :
  applyTEnv (initTEnv shapeProgram) "make-circle"
  = Ok (ProcTExp [NumTExp] (TRecord circle)).
Proof.
  apply (initTEnv_constructor shapeProgram "circle" circle).
  - reflexivity.
  - simpl. intuition discriminate.
Defined.

Lemma find_some_of_In {A} (f : A -> bool) (l : list A) (x : A) :
  In x l -> f x = true -> exists y, find f l = Some y.
Proof.
  induction l as [|z l IH]; simpl; [tauto|].
  intros [->|Hin] Hx.
  - rewrite Hx. eauto.
  - destruct (f z); eauto.
Qed.

(** X15: the initial environment binds n?, for every record named n,
    to (Any -> boolean), provided n? is not itself the name of a
    record. *)
Theorem initTEnv_record_predicate (p : Program) (r : RecordTExp) :
  In r (getRecords p) ->
  ~ In (typeName r ++ "?")%string (map (fun r : RecordTExp => typeName r) (getRecords p)) ->
  applyTEnv (initTEnv p) (typeName r ++ "?") = Ok (ProcTExp [AnyTExp] BoolTExp).
Proof.
  intros Hr Hfree. rewrite initTEnv_frames. cbn [applyTEnv].
  rewrite records_frame_lookup.
  rewrite (applyFrame_absent (map (fun r : RecordTExp => typeName r) (getRecords p)))
    by exact Hfree.
  rewrite applyFrame_map.
  destruct (find_some_of_In
              (fun x : RecordTExp => String.eqb (typeName x ++ "?") (typeName r ++ "?"))
              (getRecords p) r Hr (String.eqb_refl _)) as [y Hy].
  rewrite Hy. reflexivity.
Qed.

Lemma initTEnv_record_predicate_witness :
  applyTEnv (initTEnv shapeProgram) "square?" = Ok (ProcTExp [AnyTExp] BoolTExp).
Proof.
  apply (initTEnv_record_predicate shapeProgram square).
  - simpl. auto.
  - simpl. intuition discriminate.
Defined.

Lemma types_frame_lookup (p : Program) (v : string) :
  ~ In v (recordFrameNames p) ->
  applyTEnv (initTEnv p) v
  = match applyFrame (map (fun u : UserDefinedTExp => typeName u) (getTypeDefinitions p))
                     (map TUserDefined (getTypeDefinitions p)) v with
    | Some r => r
    | None =>
        match applyFrame
                (map (fun u : UserDefinedTExp => (typeName u ++ "?")%string) (getTypeDefinitions p))
                (map (fun _ : UserDefinedTExp => predicateTExp) (getTypeDefinitions p)) v with
        | Some r => r
        | None =>
            applyTEnv (makeExtendTEnv
                         (map (fun def : VarDecl * Exp => var (fst def)) (getDefinitions p))
                         (map (fun def : VarDecl * Exp => texp (fst def)) (getDefinitions p))
                         makeEmptyTEnv) v
        end
    end.
Proof.
  intros Hfree. rewrite initTEnv_frames. cbn [applyTEnv].
  rewrite (applyFrame_absent (recordFrameNames p)) by exact Hfree.
  unfold typeFrameNames.
  rewrite applyFrame_app by (rewrite !length_map; reflexivity).
  destruct (applyFrame (map (fun u : UserDefinedTExp => typeName u) (getTypeDefinitions p)) _ v);
    trivial.
Qed.

(** X16: a type definition whose name and predicate name n? the
    records' frame does not bind, with n? not the name of a type
    definition, has its name bound to the type definition, the first
    declared with the name, and n? bound to (Any -> boolean). *)
Theorem initTEnv_type_definition (p : Program) (u : UserDefinedTExp) :
  getUserDefinedTypeByName (typeName u) p = Ok u ->
  ~ In (typeName u) (recordFrameNames p) ->
  ~ In (typeName u ++ "?")%string (recordFrameNames p) ->
  ~ In (typeName u ++ "?")%string
       (map (fun u : UserDefinedTExp => typeName u) (getTypeDefinitions p)) ->
  applyTEnv (initTEnv p) (typeName u) = Ok (TUserDefined u)
  /\ applyTEnv (initTEnv p) (typeName u ++ "?") = Ok (ProcTExp [AnyTExp] BoolTExp).
Proof.
  intros Hu Hname Hfree Hfree'. split.
  - rewrite types_frame_lookup by exact Hname.
    rewrite applyFrame_map, find_getItemByName.
    unfold getUserDefinedTypeByName in Hu. rewrite Hu. reflexivity.
  - rewrite types_frame_lookup by exact Hfree.
    rewrite (applyFrame_absent (map (fun u : UserDefinedTExp => typeName u) (getTypeDefinitions p)))
      by exact Hfree'.
    rewrite applyFrame_map.
    assert (Hin : In u (getTypeDefinitions p)) by (apply getItemByName_name in Hu; tauto).
    destruct (find_some_of_In
                (fun x : UserDefinedTExp => String.eqb (typeName x ++ "?") (typeName u ++ "?"))
                (getTypeDefinitions p) u Hin (String.eqb_refl _)) as [y Hy].
    rewrite Hy. reflexivity.
Qed.

Lemma initTEnv_type_definition_witness :
  applyTEnv (initTEnv shapeProgram) "shape" = Ok (TUserDefined shape)
  /\ applyTEnv (initTEnv shapeProgram) "shape?" = Ok (ProcTExp [AnyTExp] BoolTExp).
Proof.
  apply (initTEnv_type_definition shapeProgram shape).
  - reflexivity.
  - simpl. intuition discriminate.
  - simpl. intuition discriminate.
  - simpl. intuition discriminate.
Defined.

(** X17: a name bound by neither the records' frame nor the type
    definitions' frame has the declared type of the first top-level
    define of that name, and no type when there is none. *)
Theorem initTEnv_global (p : Program) (v : string) :
  ~ In v (recordFrameNames p) -> ~ In v (typeFrameNames p) ->
  match find (fun def : VarDecl * Exp => String.eqb (var (fst def)) v) (getDefinitions p) with
  | Some def => applyTEnv (initTEnv p) v = Ok (texp (fst def))
  | None => isFailure (applyTEnv (initTEnv p) v) = true
  end.
Proof.
  intros Hrec Htypes.
  rewrite types_frame_lookup by exact Hrec.
  rewrite (applyFrame_absent (map (fun u : UserDefinedTExp => typeName u) (getTypeDefinitions p)))
    by (intros Hin; apply Htypes, in_or_app; auto).
  rewrite (applyFrame_absent
             (map (fun u : UserDefinedTExp => (typeName u ++ "?")%string) (getTypeDefinitions p)))
    by (intros Hin; apply Htypes, in_or_app; auto).
  cbn [applyTEnv]. rewrite applyFrame_map.
  destruct (find _ (getDefinitions p)); reflexivity.
Qed.

Lemma initTEnv_global_witness :
  applyTEnv (initTEnv globalsProgram) "area"
  = Ok (ProcTExp [UserDefinedNameTExp "shape"] NumTExp).
Proof.
  apply (initTEnv_global globalsProgram "area"); simpl; intuition discriminate.
Defined.

(** ** Typing rules *)

Lemma bindT_Some {T U} (m : Typing T) (f : T -> Typing U) (r : Result U) :
  bindT m f = Some r ->
  (exists msg, m = Some (Failure msg) /\ r = Failure msg)
  \/ (exists v, m = Some (Ok v) /\ f v = Some r).
Proof.
  destruct m as [[v|msg]|]; simpl; [eauto| |discriminate].
  intros [= <-]. eauto.
Qed.

Lemma bindT_Ok {T U} (m : Typing T) (f : T -> Typing U) (u : U) :
  bindT m f = Some (Ok u) -> exists v, m = Some (Ok v) /\ f v = Some (Ok u).
Proof.
  intros H. apply bindT_Some in H as [(msg & _ & Hr)|H]; [discriminate|exact H].
Qed.

Lemma equals_BoolTExp (t : TExp) : equals t BoolTExp = true -> t = BoolTExp.
Proof. rewrite equals_iff. destruct t; simpl; congruence. Qed.

Lemma checkEqualType_Ok {host : Host} (te1 te2 t : TExp) (exp : Parsed) (p : Program) :
  checkEqualType te1 te2 exp p = Ok t -> t = te2.
Proof.
  intros H. destruct (checkEqualType_cases te1 te2 exp p) as [[H' _]|[H' _]].
  - congruence.
  - rewrite H in H'. discriminate.
Qed.

Section Sequences.

Variable self : Parsed -> TEnv -> Program -> Typing TExp.
Variables (tenv : TEnv) (p : Program).

Lemma typeofExps_app_ok (es : list Exp) (rest : list Exp) :
  rest <> [] ->
  (forall e', In e' es -> exists t, self (ParsedExp e') tenv p = Some (Ok t)) ->
  typeofExps self (es ++ rest) tenv p = typeofExps self rest tenv p.
Proof.
  intros Hrest. induction es as [|e es IH]; intros Hok; trivial.
  cbn [app typeofExps].
  destruct (es ++ rest) as [|e' l] eqn:E.
  - destruct es; [simpl in E; congruence | discriminate].
  - destruct (Hok e) as [t Ht]; [simpl; auto|]. rewrite Ht. simpl.
    apply IH. intros e'' He. apply Hok. simpl. auto.
Qed.

(** X18: the type of a sequence whose expressions all type is the type
    of its last expression; a sequence fails with the failure of its
    first expression that fails, whatever follows. *)
Theorem typeofExps_sequence (es : list Exp) (e : Exp) :
  (forall e', In e' es -> exists t, self (ParsedExp e') tenv p = Some (Ok t)) ->
  typeofExps self (es ++ [e]) tenv p = self (ParsedExp e) tenv p
  /\ (forall rest m, self (ParsedExp e) tenv p = Some (Failure m) ->
                     typeofExps self (es ++ e :: rest) tenv p = Some (Failure m)).
Proof.
  intros Hok. split.
  - rewrite typeofExps_app_ok; trivial. discriminate.
  - intros rest m Hm. rewrite typeofExps_app_ok; trivial; [|discriminate].
    cbn [typeofExps]. destruct rest; [exact Hm|]. rewrite Hm. reflexivity.
Qed.

Lemma typeofExps_all_ok (es : list Exp) (t : TExp) :
  typeofExps self es tenv p = Some (Ok t) ->
  forall e, In e es -> exists t', self (ParsedExp e) tenv p = Some (Ok t').
Proof.
  induction es as [|e es IH]; [discriminate|].
  cbn [typeofExps]. destruct es as [|e' es].
  - intros Ht e0 [<-|[]]. eauto.
  - intros Ht. apply bindT_Ok in Ht as (v & Hv & Hrest).
    intros e0 [<-|Hin]; [eauto|]. apply IH; trivial.
Qed.

End Sequences.

Lemma typeofExps_sequence_witness :
  typeofExps (@typeofExp (exampleHost shapeProgram) 3) ([NumExp 1; StrExp "a"] ++ [BoolExp true])
             makeEmptyTEnv shapeProgram
  = @typeofExp (exampleHost shapeProgram) 3 (ParsedExp (BoolExp true)) makeEmptyTEnv shapeProgram
  /\ (forall rest m,
         @typeofExp (exampleHost shapeProgram) 3 (ParsedExp (BoolExp true)) makeEmptyTEnv shapeProgram
         = Some (Failure m) ->
         typeofExps (@typeofExp (exampleHost shapeProgram) 3)
                    ([NumExp 1; StrExp "a"] ++ BoolExp true :: rest) makeEmptyTEnv shapeProgram
         = Some (Failure m)).
Proof.
  apply typeofExps_sequence.
  intros e' [<-|[<-|[]]]; eexists; reflexivity.
Defined.

Section RuleProperties.

Context {host : Host}.

(** X19: an if has a type only when its test has exactly the type
    boolean and both branches have types with a cover; its type is
    then the one [checkCoverType] gives for the two branch types. *)
Theorem typeofIf_inversion (fuel : nat) (test then_ alt : Exp) (tenv : TEnv) (p : Program)
        (t : TExp) :
  typeofExp (S fuel) (IfExp test then_ alt) tenv p = Some (Ok t) ->
  typeofExp fuel test tenv p = Some (Ok BoolTExp)
  /\ exists t1 t2,
      typeofExp fuel then_ tenv p = Some (Ok t1)
      /\ typeofExp fuel alt tenv p = Some (Ok t2)
      /\ checkCoverType [t1; t2] p = Ok t.
Proof.
  cbn [typeofExp]. unfold typeofIf. intros H.
  destruct (typeofExp fuel test tenv p) as [rtest|]; [|discriminate].
  destruct (typeofExp fuel then_ tenv p) as [rthen|]; [|discriminate].
  destruct (typeofExp fuel alt tenv p) as [ralt|]; [|discriminate].
  injection H as H.
  destruct rtest as [testTE|m]; [|discriminate]. cbn [bind] in H.
  destruct (checkEqualType testTE makeBoolTExp (IfExp test then_ alt) p) as [b|m] eqn:E;
    [|discriminate]. cbn [bind] in H.
  destruct rthen as [t1|m1]; [|discriminate]. destruct ralt as [t2|m2]; [|discriminate].
  cbn [bind] in H.
  assert (Hb : isOk (checkEqualType testTE makeBoolTExp (IfExp test then_ alt) p) = true)
    by (rewrite E; reflexivity).
  rewrite checkEqualType_plain in Hb by reflexivity.
  apply equals_BoolTExp in Hb. subst testTE.
  split; [reflexivity|]. exists t1, t2. repeat split; trivial.
Qed.

(** X20: a procedure expression has a type only when the type of its
    body is compatible with the declared return type, and its type is
    then the declared one: the declared parameter types to the declared
    return type. *)
Theorem typeofProc_inversion (fuel : nat) (args : list VarDecl) (body : list Exp)
        (returnTE : TExp) (tenv : TEnv) (p : Program) (t : TExp) :
  typeofExp (S fuel) (ProcExp args body returnTE) tenv p = Some (Ok t) ->
  t = ProcTExp (map texp args) returnTE
  /\ exists tb,
      typeofExps (typeofExp fuel) body (makeExtendTEnv (map var args) (map texp args) tenv) p
      = Some (Ok tb)
      /\ checkEqualType tb returnTE (ProcExp args body returnTE) p = Ok returnTE.
Proof.
  cbn [typeofExp]. unfold typeofProc. intros H.
  apply bindT_Ok in H as (rt & H & Hres).
  apply bindT_Ok in H as (tb & Hbody & Hcheck).
  injection Hcheck as Hcheck. injection Hres as <-.
  pose proof (checkEqualType_Ok _ _ _ _ _ Hcheck) as ->.
  split; [reflexivity|]. eauto.
Qed.

End RuleProperties.

Lemma typeofIf_inversion_witness :
  @typeofExp (exampleHost shapeProgram) 1 (BoolExp true) makeEmptyTEnv shapeProgram
  = Some (Ok BoolTExp)
  /\ exists t1 t2,
      @typeofExp (exampleHost shapeProgram) 1 (NumExp 1) makeEmptyTEnv shapeProgram = Some (Ok t1)
      /\ @typeofExp (exampleHost shapeProgram) 1 (NumExp 2) makeEmptyTEnv shapeProgram = Some (Ok t2)
      /\ @checkCoverType (exampleHost shapeProgram) [t1; t2] shapeProgram = Ok NumTExp.
Proof.
  apply (@typeofIf_inversion (exampleHost shapeProgram) 1 (BoolExp true) (NumExp 1) (NumExp 2)
           makeEmptyTEnv shapeProgram NumTExp).
  reflexivity.
Defined.

(** A procedure from circle declared to return shape, whose body has
    the type circle. *)
Lemma typeofProc_inversion_witness :
  ProcTExp [UserDefinedNameTExp "circle"] (UserDefinedNameTExp "shape")
  = ProcTExp (map texp [makeVarDecl "c" (UserDefinedNameTExp "circle")])
             (UserDefinedNameTExp "shape")
  /\ exists tb,
      typeofExps (@typeofExp (exampleHost shapeProgram) 2) [VarRef "c"]
        (makeExtendTEnv (map var [makeVarDecl "c" (UserDefinedNameTExp "circle")])
                        (map texp [makeVarDecl "c" (UserDefinedNameTExp "circle")])
                        (initTEnv shapeProgram)) shapeProgram
      = Some (Ok tb)
      /\ @checkEqualType (exampleHost shapeProgram) tb (UserDefinedNameTExp "shape")
           (ParsedExp widen) shapeProgram
         = Ok (UserDefinedNameTExp "shape").
Proof.
  apply (@typeofProc_inversion (exampleHost shapeProgram) 2
           [makeVarDecl "c" (UserDefinedNameTExp "circle")] [VarRef "c"]
           (UserDefinedNameTExp "shape") (initTEnv shapeProgram) shapeProgram).
  reflexivity.
Defined.

(** ** Applications *)

Section Applications.

Context {host : Host}.

Variables (fuel : nat) (tenv : TEnv) (p : Program).

(** X21: an application fails when its operator has a type that is not
    a procedure type, and when the number of operands differs from the
    number of parameters, whatever the operands are. *)
Theorem typeofApp_refusals (rator : Exp) (rands : list Exp) (ratorTE : TExp) :
  typeofExp fuel rator tenv p = Some (Ok ratorTE) ->
  match ratorTE with
  | ProcTExp paramTEs _ => length rands <> length paramTEs
  | _ => True
  end ->
  exists m, typeofExp (S fuel) (AppExp rator rands) tenv p = Some (Failure m).
Proof.
  intros Hrator Hbad. cbn [typeofExp]. unfold typeofApp. rewrite Hrator. cbn [bindT].
  destruct ratorTE;
    try (destruct (unparseTExp _) as [s1|m1]; cbn [bind];
         [destruct (unparse _) as [s2|m2]; cbn [bind]|]; eexists; reflexivity).
  apply Nat.eqb_neq in Hbad. rewrite Hbad. cbn [negb].
  destruct (unparse _) as [s2|m2]; cbn [bind]; eexists; reflexivity.
Qed.

Lemma zipWithResult_all_ok {T1 T2 T3} (f : T1 -> T2 -> Typing T3)
      (xs : list T1) (ys : list T2) :
  Forall2 (fun x y => exists v, f x y = Some (Ok v)) xs ys ->
  exists vs, zipWithResult f xs ys = Some (Ok vs).
Proof.
  induction 1 as [|x y xs ys [v Hv] _ [vs Hvs]]; simpl; [eauto|].
  rewrite Hv. simpl. rewrite Hvs. simpl. eauto.
Qed.

(** X22: an application whose operator has a procedure type and whose
    operands, one per parameter, each have a type compatible with the
    parameter's has the declared return type of the procedure. *)
Theorem typeofApp_accepts (rator : Exp) (rands : list Exp) (paramTEs : list TExp)
        (returnTE : TExp) :
  typeofExp fuel rator tenv p = Some (Ok (ProcTExp paramTEs returnTE)) ->
  Forall2 (fun (rand : Exp) trand =>
             exists t, typeofExp fuel rand tenv p = Some (Ok t)
                       /\ isOk (checkEqualType t trand (AppExp rator rands) p) = true)
          rands paramTEs ->
  typeofExp (S fuel) (AppExp rator rands) tenv p = Some (Ok returnTE).
Proof.
  intros Hrator Hrands. cbn [typeofExp]. unfold typeofApp. rewrite Hrator. cbn [bindT].
  rewrite (Forall2_length Hrands), Nat.eqb_refl. cbn [negb].
  destruct (zipWithResult_all_ok
              (fun (rand : Exp) trand =>
                 bindT (typeofExp fuel rand tenv p) (fun typeOfRand =>
                   Some (checkEqualType typeOfRand trand (AppExp rator rands) p)))
              rands paramTEs) as [vs Hvs].
  - eapply Forall2_impl; [|exact Hrands]. intros rand trand (t & Ht & Hok).
    rewrite Ht. cbn [bindT].
    destruct (checkEqualType t trand (AppExp rator rands) p) as [v|m]; [eauto|discriminate].
  - rewrite Hvs. reflexivity.
Qed.

End Applications.

Lemma typeofApp_refusals_witness :
  exists m,
    @typeofExp (exampleHost shapeProgram) 4
       (AppExp (VarRef "make-circle") [NumExp 1; NumExp 2]) (initTEnv shapeProgram) shapeProgram
    = Some (Failure m).
Proof.
  apply (@typeofApp_refusals (exampleHost shapeProgram) 3 (initTEnv shapeProgram) shapeProgram
           (VarRef "make-circle") [NumExp 1; NumExp 2] (ProcTExp [NumTExp] (TRecord circle))).
  - reflexivity.
  - discriminate.
Defined.

(** A procedure on shapes applied to a circle. *)
Lemma typeofApp_accepts_witness :
  @typeofExp (exampleHost shapeProgram) 4 applyToCircle (initTEnv shapeProgram) shapeProgram
  = Some (Ok NumTExp).
Proof.
  apply (@typeofApp_accepts (exampleHost shapeProgram) 3 (initTEnv shapeProgram) shapeProgram
           (ProcExp [makeVarDecl "s" (UserDefinedNameTExp "shape")] [NumExp 1] NumTExp)
           [AppExp (VarRef "make-circle") [NumExp 3]]
           [UserDefinedNameTExp "shape"] NumTExp).
  - reflexivity.
  - constructor; [|constructor]. exists (TRecord circle). split; reflexivity.
Defined.

(** ** Let and letrec *)

Section Bindings.

Context {host : Host}.

Variables (fuel : nat) (tenv : TEnv) (p : Program).

Lemma zipWithResult_map_ok {A T1 T2 T3} (f : T1 -> T2 -> Typing T3)
      (g1 : A -> T1) (g2 : A -> T2) (l : list A) :
  forall vs, zipWithResult f (map g1 l) (map g2 l) = Some (Ok vs) ->
             Forall (fun a => exists v, f (g1 a) (g2 a) = Some (Ok v)) l.
Proof.
  induction l as [|a l IH]; intros vs; simpl; [constructor|].
  intros H. apply bindT_Ok in H as (v & Hv & H). apply bindT_Ok in H as (vs' & Hvs & _).
  constructor; eauto.
Qed.

(** X23: a let has a type only when every initializer has a type in
    the enclosing environment and [checkEqualType] accepts the
    declared type of its variable, passed first, against the type of
    the initializer, passed second; the type of the let is then the
    type of its body, typed with all the variables bound to their
    declared types. *)
Theorem typeofLet_inversion (bindings : list Binding) (body : list Exp) (t : TExp) :
  typeofExp (S fuel) (LetExp bindings body) tenv p = Some (Ok t) ->
  Forall (fun b : Binding =>
            exists typeOfVal,
              typeofExp fuel (bindingVal b) tenv p = Some (Ok typeOfVal)
              /\ checkEqualType (texp (bindingVar b)) typeOfVal (LetExp bindings body) p
                 = Ok typeOfVal)
         bindings
  /\ typeofExps (typeofExp fuel) body
       (makeExtendTEnv (map (fun b => var (bindingVar b)) bindings)
                       (map (fun b => texp (bindingVar b)) bindings) tenv) p
     = Some (Ok t).
Proof.
  cbn [typeofExp]. unfold typeofLet. intros H.
  apply bindT_Ok in H as (vs & Hvs & Hbody). split; [|exact Hbody].
  apply zipWithResult_map_ok in Hvs.
  eapply Forall_impl; [|exact Hvs]. cbn beta.
  intros b (v & Hv). apply bindT_Ok in Hv as (typeOfVal & Hval & Hcheck).
  injection Hcheck as Hcheck.
  pose proof (checkEqualType_Ok _ _ _ _ _ Hcheck) as ->.
  exists typeOfVal. auto.
Qed.

(** X24: letrec binds procedures only: with a binding whose value is
    not a procedure expression it fails before typing anything. *)
Theorem typeofLetrec_procedures_only (bindings : list Binding) (body : list Exp) (b : Binding) :
  In b bindings -> isProcExp (bindingVal b) = false ->
  typeofExp (S fuel) (LetrecExp bindings body) tenv p
  = Some (Failure ("letrec - only support binding of procedures - "
                   ++ stringifyExp (ParsedExp (LetrecExp bindings body)))).
Proof.
  intros Hb Hval. cbn [typeofExp]. unfold typeofLetrec.
  replace (forallb isProcExp (map bindingVal bindings)) with false; [reflexivity|].
  symmetry. apply not_true_is_false. intros Hall.
  rewrite forallb_forall in Hall. specialize (Hall (bindingVal b) (in_map _ _ _ Hb)).
  congruence.
Qed.

End Bindings.

(** A variable declared circle initialised with a circle, and a number. *)
Lemma typeofLet_inversion_witness :
  Forall (fun b : Binding =>
            exists typeOfVal,
              @typeofExp (exampleHost shapeProgram) 3 (bindingVal b)
                 (initTEnv shapeProgram) shapeProgram = Some (Ok typeOfVal)
              /\ @checkEqualType (exampleHost shapeProgram) (texp (bindingVar b)) typeOfVal
                   (ParsedExp letCircle) shapeProgram
                 = Ok typeOfVal)
         [makeBinding (makeVarDecl "c" (UserDefinedNameTExp "circle"))
                      (AppExp (VarRef "make-circle") [NumExp 3]);
          makeBinding (makeVarDecl "n" NumTExp) (NumExp 1)]
  /\ typeofExps (@typeofExp (exampleHost shapeProgram) 3) [VarRef "n"]
       (makeExtendTEnv ["c"; "n"] [UserDefinedNameTExp "circle"; NumTExp]
                       (initTEnv shapeProgram)) shapeProgram
     = Some (Ok NumTExp).
Proof.
  apply (@typeofLet_inversion (exampleHost shapeProgram) 3 (initTEnv shapeProgram) shapeProgram
           [makeBinding (makeVarDecl "c" (UserDefinedNameTExp "circle"))
                        (AppExp (VarRef "make-circle") [NumExp 3]);
            makeBinding (makeVarDecl "n" NumTExp) (NumExp 1)]
           [VarRef "n"] NumTExp).
  reflexivity.
Defined.

(** A variable declared shape is refused a circle as initializer: the
    declared type is passed first. *)
Example typeofLet_on_letShape :
  exists m,
    @typeofExp (exampleHost shapeProgram) 4 letShape (initTEnv shapeProgram) shapeProgram
    = Some (Failure m).
Proof. eexists. reflexivity. Qed.

Lemma typeofLetrec_procedures_only_witness :
  @typeofExp (exampleHost shapeProgram) 1 letrecNumber makeEmptyTEnv shapeProgram
  = Some (Failure ("letrec - only support binding of procedures - "
                   ++ @stringifyExp (exampleHost shapeProgram) (ParsedExp letrecNumber))).
Proof.
  apply (@typeofLetrec_procedures_only (exampleHost shapeProgram) 0 makeEmptyTEnv shapeProgram
           [makeBinding (makeVarDecl "x" NumTExp) (NumExp 1)] [VarRef "x"]
           (makeBinding (makeVarDecl "x" NumTExp) (NumExp 1))).
  - simpl. auto.
  - reflexivity.
Defined.

(** ** Well-formedness, again *)

Lemma checkUserDefinedTypes_Ok {host : Host} (p : Program) (b : bool) :
  checkUserDefinedTypes p = Ok b -> b = true.
Proof.
  unfold checkUserDefinedTypes. destruct (_ && _); [intros [= <-]; reflexivity|discriminate].
Qed.

Lemma typed_program_is_well_formed {host : Host} (fuel : nat) (p : Program) (tenv : TEnv)
      (t : TExp) :
  typeofExp fuel (ParsedProgram p) tenv p = Some (Ok t) ->
  checkUserDefinedTypes p = Ok true.
Proof.
  destruct fuel as [|fuel]; [discriminate|]. cbn [typeofExp]. unfold typeofProgram.
  intros Ht.
  pose proof (typeofExps_all_ok (typeofExp fuel) tenv p (exps p) t Ht) as Hall.
  destruct (getTypeDefinitions p) as [|ud uds] eqn:Edefs.
  - unfold checkUserDefinedTypes, compareRecords, isLegalRecord, getRecords.
    rewrite Edefs. reflexivity.
  - assert (Hud : In ud (getTypeDefinitions p)) by (rewrite Edefs; simpl; auto).
    rewrite getTypeDefinitions_flat_map in Hud.
    apply in_flat_map in Hud as (e & He & Hud).
    destruct (Hall e He) as [t' Ht'].
    destruct e; try contradiction.
    destruct fuel as [|fuel]; [discriminate|]. cbn [typeofExp] in Ht'.
    unfold typeofDefineType in Ht'.
    destruct (checkUserDefinedTypes p) as [b|m] eqn:E; [|discriminate].
    rewrite (checkUserDefinedTypes_Ok p b E). reflexivity.
Qed.

(** X25: when the typing of the whole program succeeds the final check
    of the type definitions succeeds too: the entry point then gives
    the rendering of the program's type. *)
Theorem entry_renders_the_type {host : Host} (fuel : nat) (s : string) (p : Program) (t : TExp) :
  parseL51 s = Ok p ->
  typeofExp fuel (ParsedProgram p) (initTEnv p) p = Some (Ok t) ->
  L51typeofProgram fuel s = Some (unparseTExp t).
Proof.
  intros Hp Ht. unfold L51typeofProgram. rewrite Hp. cbn [bindT]. rewrite Ht. cbn [bindT].
  rewrite (typed_program_is_well_formed fuel p (initTEnv p) t Ht). reflexivity.
Qed.

Lemma entry_renders_the_type_witness :
  @L51typeofProgram (exampleHost shapeUse) 5 "(L51 ...)"
  = Some (@unparseTExp (exampleHost shapeUse) NumTExp).
Proof.
  apply (@entry_renders_the_type (exampleHost shapeUse) 5 "(L51 ...)" shapeUse NumTExp);
    reflexivity.
Defined.

(** X26: a record name declared twice with different numbers of
    fields, or with a field name on one side that the other side does
    not have, makes the type definitions ill-formed. *)
Theorem checkUserDefinedTypes_refuses_redeclaration {host : Host}
        (p : Program) (r1 r2 : RecordTExp) :
  In r1 (getRecords p) -> In r2 (getRecords p) -> typeName r1 = typeName r2 ->
  length (fields r1) <> length (fields r2)
  \/ (exists f2, In f2 (fields r2)
                 /\ forall f, In f (fields r1) -> fieldName f <> fieldName f2) ->
  checkUserDefinedTypes p = Failure "Invalid UDT".
Proof.
  intros H1 H2 Hname Hdiff. unfold checkUserDefinedTypes.
  destruct (compareRecords p) eqn:Hcmp; [|reflexivity]. exfalso.
  unfold compareRecords in Hcmp. rewrite forallb_forall in Hcmp.
  specialize (Hcmp r1 H1). rewrite forallb_forall in Hcmp.
  assert (Hsel : In r2 (filter (fun r : RecordTExp => String.eqb (typeName r) (typeName r1))
                               (getRecords p))).
  { apply filter_In. split; trivial. apply String.eqb_eq. congruence. }
  specialize (Hcmp r2 Hsel).
  apply andb_true_iff in Hcmp as [Hcmp _]. apply andb_true_iff in Hcmp as [Hlen Hfields].
  destruct Hdiff as [Hdiff|(f2 & Hf2 & Hnone)].
  - apply Nat.eqb_eq in Hlen. contradiction.
  - rewrite forallb_forall in Hfields. specialize (Hfields f2 Hf2).
    apply existsb_exists in Hfields as (f & Hf & Hsame).
    unfold compareFields in Hsame.
    apply andb_true_iff in Hsame as [Hsame _]. apply andb_true_iff in Hsame as [Hsame _].
    apply String.eqb_eq in Hsame. exact (Hnone f Hf Hsame).
Qed.

Lemma checkUserDefinedTypes_refuses_redeclaration_witness :
  @checkUserDefinedTypes (exampleHost clashProgram) clashProgram = Failure "Invalid UDT".
Proof.
  apply (@checkUserDefinedTypes_refuses_redeclaration (exampleHost clashProgram) clashProgram
           (makeRecord 1 "r" [makeField "x" NumTExp]) (makeRecord 2 "r" [makeField "y" NumTExp])).
  - simpl. auto.
  - simpl. auto.
  - reflexivity.
  - right. exists (makeField "y" NumTExp). split; [simpl; auto|].
    intros f [<-|[]]. discriminate.
Defined.

Lemma NoDup_map_same {A B} (f : A -> B) (l : list A) (a b : A) :
  NoDup (map f l) -> In a l -> In b l -> f a = f b -> a = b.
Proof.
  induction l as [|x l IH]; simpl; [tauto|].
  intros Hnd Ha Hb Hf. apply NoDup_cons_iff in Hnd as [Hx Hnd].
  destruct Ha as [->|Ha], Hb as [->|Hb]; trivial.
  - elim Hx. rewrite Hf. apply in_map, Hb.
  - elim Hx. rewrite <- Hf. apply in_map, Ha.
  - apply IH; trivial.
Qed.

(** X27: with every record name declared once and no field holding a
    type definition itself (fields refer to user-defined types by
    name), the type definitions are well-formed, given a type
    equivalence that holds between a type and itself: the base-case
    check then rejects nothing. *)
Theorem checkUserDefinedTypes_accepts {host : Host} (p : Program) :
  (forall t, equivalentTEs t t = true) ->
  NoDup (map (fun r : RecordTExp => typeName r) (getRecords p)) ->
  (forall r f, In r (getRecords p) -> In f (fields r) -> isUserDefinedTExp (te f) = false) ->
  checkUserDefinedTypes p = Ok true.
Proof.
  intros Hrefl Hnd Hnames. unfold checkUserDefinedTypes.
  assert (Hself : forall r : RecordTExp,
             forallb (fun f2 => existsb (fun f => compareFields f f2) (fields r)) (fields r) = true).
  { intros r. apply forallb_forall. intros f Hf. apply existsb_exists. exists f. split; trivial.
    unfold compareFields. rewrite !String.eqb_refl, Hrefl. reflexivity. }
  assert (Hcmp : compareRecords p = true).
  { unfold compareRecords. apply forallb_forall. intros r Hr.
    apply forallb_forall. intros r2 Hr2. apply filter_In in Hr2 as [Hr2 Hname].
    apply String.eqb_eq in Hname.
    rewrite (NoDup_map_same (fun r : RecordTExp => typeName r) (getRecords p) r2 r Hnd Hr2 Hr Hname).
    rewrite Nat.eqb_refl. cbn [andb].
    apply andb_true_iff. split; [apply Hself|].
    apply forallb_forall. intros f Hf. apply existsb_exists. exists f. split; trivial.
    unfold compareFields. rewrite !String.eqb_refl, Hrefl. reflexivity. }
  assert (Hlegal : isLegalRecord p = true).
  { unfold isLegalRecord. apply forallb_forall. intros def Hdef. exfalso.
    apply filter_In in Hdef as [Hdef Hsel].
    apply existsb_exists in Hsel as (r & Hr & Hsel).
    apply existsb_exists in Hsel as (f & Hf & Hsel).
    assert (Hrec : In r (getRecords p)).
    { unfold getRecords. apply in_concat. exists (records def). split; trivial.
      apply in_map, Hdef. }
    specialize (Hnames r f Hrec Hf). unfold fieldIsType in Hsel.
    destruct (te f); discriminate. }
  rewrite Hcmp, Hlegal. reflexivity.
Qed.

Lemma checkUserDefinedTypes_accepts_witness :
  @checkUserDefinedTypes (exampleHost shapeProgram) shapeProgram = Ok true.
Proof.
  apply (@checkUserDefinedTypes_accepts (exampleHost shapeProgram) shapeProgram).
  - exact equals_refl.
  - simpl. repeat constructor; simpl; intuition discriminate.
  - intros r f [<-|[<-|[]]] [<-|[]]; reflexivity.
Defined.

(** ** Type-case, again *)

(** X28: [checkTypeCase] leaves the type-case expression with the
    same type name, the same dispatch value and the same clauses, in
    some order: it never adds, drops or alters a clause. *)
Theorem checkTypeCase_only_reorders {host : Host} (tc : TypeCaseExp) (p : Program) :
  typeName (snd (checkTypeCase tc p)) = typeName tc
  /\ tcVal (snd (checkTypeCase tc p)) = tcVal tc
  /\ Permutation (cases tc) (cases (snd (checkTypeCase tc p))).
Proof.
  unfold checkTypeCase.
  destruct (checkCoverType _ p) as [udt|m]; [|auto].
  destruct (match typeNameOf udt with Some n => _ | None => _ end) as [ud|m]; [|auto].
  cbn [snd]. repeat split. cbn [cases]. symmetry. apply Permutation_sort.
Qed.

(** X29: a type-case that dispatches on a union and whose clauses are
    not, in some order, one clause per record of the union with as
    many variables as the record has fields, never has a type. *)
Theorem typeofTypeCase_exhaustive {host : Host}
        (tc : TypeCaseExp) (p : Program) (u : UserDefinedTExp) :
  getUserDefinedTypeByName (typeName tc) p = Ok u ->
  ~ clausesMatch u tc ->
  forall fuel tenv t, typeofExp fuel (TypeCase tc) tenv p <> Some (Ok t).
Proof.
  intros Hu Hno fuel tenv t. destruct fuel as [|fuel]; [discriminate|].
  cbn [typeofExp]. unfold typeofTypeCase.
  destruct (typeofExp fuel (tcVal tc) tenv p) as [valTE|]; [|discriminate].
  destruct (getTypeByName (typeName tc) p) as [userDefinedTE|m]; [|discriminate].
  destruct valTE as [valTE|m]; [|discriminate].
  destruct (checkEqualType valTE userDefinedTE (TypeCase tc) p) as [ok|m]; [|discriminate].
  destruct (@checkTypeCase_result host tc p u Hu) as [Hok|[m Hm]].
  - elim Hno. apply (@checkTypeCase_success_matches host tc p u Hu Hok).
  - rewrite Hm. discriminate.
Qed.

(** The type-case on shape with a clause for circle only. *)
Lemma typeofTypeCase_exhaustive_witness :
  (getUserDefinedTypeByName (typeName circleOnly) shapeProgram = Ok shape
   /\ ~ clausesMatch shape circleOnly)
  /\ @typeofExp (exampleHost shapeProgram) 4 (TypeCase circleOnly) setEnv shapeProgram
     <> Some (Ok NumTExp).
Proof.
  assert (H1 : getUserDefinedTypeByName (typeName circleOnly) shapeProgram = Ok shape)
    by reflexivity.
  assert (H2 : ~ clausesMatch shape circleOnly).
  { intros Hmatch. apply Permutation_length in Hmatch. discriminate. }
  split; [auto|].
  exact (@typeofTypeCase_exhaustive (exampleHost shapeProgram) circleOnly shapeProgram shape
           H1 H2 4 setEnv NumTExp).
Defined.

(** ** The result does not depend on the budget *)

Lemma bindT_mono {T U} (m m' : Typing T) (k k' : T -> Typing U) (r : Result U) :
  (forall a, m = Some a -> m' = Some a) ->
  (forall v r', k v = Some r' -> k' v = Some r') ->
  bindT m k = Some r -> bindT m' k' = Some r.
Proof.
  intros Hm Hk. destruct m as [[v|msg]|]; simpl; [| |discriminate].
  - rewrite (Hm _ eq_refl). simpl. apply Hk.
  - rewrite (Hm _ eq_refl). trivial.
Qed.

Lemma mapvT_mono {T U} (m m' : Typing T) (f : T -> U) (r : Result U) :
  (forall a, m = Some a -> m' = Some a) ->
  mapvT m f = Some r -> mapvT m' f = Some r.
Proof.
  intros Hm. destruct m as [a|]; simpl; [|discriminate].
  rewrite (Hm _ eq_refl). trivial.
Qed.

Lemma zipWithResult_mono {T1 T2 T3} (f f' : T1 -> T2 -> Typing T3) (xs : list T1) :
  (forall x y r, f x y = Some r -> f' x y = Some r) ->
  forall ys r, zipWithResult f xs ys = Some r -> zipWithResult f' xs ys = Some r.
Proof.
  intros Hf. induction xs as [|x xs IH]; intros [|y ys] r; simpl; trivial.
  apply bindT_mono; [apply Hf|]. intros v r'.
  apply bindT_mono; [apply IH|trivial].
Qed.

Lemma mapResult_mono {T U} (f f' : T -> Typing U) (l : list T) :
  (forall x r, f x = Some r -> f' x = Some r) ->
  forall r, mapResult f l = Some r -> mapResult f' l = Some r.
Proof.
  intros Hf. induction l as [|x l IH]; intros r; simpl; trivial.
  apply bindT_mono; [apply Hf|]. intros v r'.
  apply bindT_mono; [apply IH|trivial].
Qed.

Section Monotone.

Context {host : Host}.

Variables self self' : Parsed -> TEnv -> Program -> Typing TExp.
Hypothesis self_extends : extends self self'.

Lemma typeofExps_mono (es : list Exp) (tenv : TEnv) (p : Program) (r : Result TExp) :
  typeofExps self es tenv p = Some r -> typeofExps self' es tenv p = Some r.
Proof.
  revert r. induction es as [|e es IH]; intros r; cbn [typeofExps]; trivial.
  destruct es as [|e' es]; [apply self_extends|].
  apply bindT_mono; [intros a; apply self_extends|]. intros _ r'. apply IH.
Qed.

Lemma rules_mono (e : Exp) (tenv : TEnv) (p : Program) (r : Result TExp) :
  match e with
  | IfExp test then_ alt =>
      typeofIf self test then_ alt tenv p = Some r ->
      typeofIf self' test then_ alt tenv p = Some r
  | ProcExp args body returnTE =>
      typeofProc self args body returnTE tenv p = Some r ->
      typeofProc self' args body returnTE tenv p = Some r
  | AppExp rator rands =>
      typeofApp self rator rands tenv p = Some r ->
      typeofApp self' rator rands tenv p = Some r
  | LetExp bindings body =>
      typeofLet self bindings body tenv p = Some r ->
      typeofLet self' bindings body tenv p = Some r
  | LetrecExp bindings body =>
      typeofLetrec self bindings body tenv p = Some r ->
      typeofLetrec self' bindings body tenv p = Some r
  | DefineExp vd val =>
      typeofDefine self vd val tenv p = Some r ->
      typeofDefine self' vd val tenv p = Some r
  | SetExp v val =>
      typeofSet self v val tenv p = Some r ->
      typeofSet self' v val tenv p = Some r
  | TypeCase tc =>
      typeofTypeCase self tc tenv p = Some r ->
      typeofTypeCase self' tc tenv p = Some r
  | _ => True
  end.
Proof.
  destruct e as [n|b|s|op|v|test then_ alt|args body returnTE|rator rands
                 |bindings body|bindings body|vd val|v val|val|name udType|tc]; trivial.
  - (* if *)
    unfold typeofIf.
    destruct (self (ParsedExp test) tenv p) as [r1|] eqn:E1; [|discriminate].
    destruct (self (ParsedExp then_) tenv p) as [r2|] eqn:E2; [|discriminate].
    destruct (self (ParsedExp alt) tenv p) as [r3|] eqn:E3; [|discriminate].
    rewrite (self_extends _ _ _ _ E1), (self_extends _ _ _ _ E2), (self_extends _ _ _ _ E3).
    trivial.
  - (* procedure *)
    unfold typeofProc. apply bindT_mono; [|trivial]. intros a.
    apply bindT_mono; [|trivial]. intros a'. apply typeofExps_mono.
  - (* application *)
    unfold typeofApp. apply bindT_mono; [intros a; apply self_extends|].
    intros ratorTE r'. destruct ratorTE; trivial.
    destruct (negb _); trivial.
    apply mapvT_mono. intros a. apply zipWithResult_mono. intros rand trand r''.
    apply bindT_mono; [intros a'; apply self_extends|trivial].
  - (* let *)
    unfold typeofLet. apply bindT_mono.
    + intros a. apply zipWithResult_mono. intros varTE val r'.
      apply bindT_mono; [intros a'; apply self_extends|trivial].
    + intros _ r'. apply typeofExps_mono.
  - (* letrec *)
    unfold typeofLetrec. destruct (negb _); trivial.
    apply bindT_mono.
    + intros a. apply bindT_mono; [|trivial].
      intros a'. apply zipWithResult_mono. intros bodyI tenvI r'. apply typeofExps_mono.
    + intros _ r'. apply typeofExps_mono.
  - (* define *)
    unfold typeofDefine. apply mapvT_mono. intros a. apply self_extends.
  - (* set! *)
    unfold typeofSet. apply mapvT_mono. intros a.
    apply bindT_mono; [intros a'; apply self_extends|].
    intros typeOfVar r'. apply bindT_mono; [intros a'; apply self_extends|trivial].
  - (* type-case *)
    unfold typeofTypeCase.
    destruct (self (ParsedExp (tcVal tc)) tenv p) as [valTE|] eqn:E; [|discriminate].
    rewrite (self_extends _ _ _ _ E).
    match goal with |- match fst ?c with _ => _ end = _ -> _ => destruct (fst c) end; trivial.
    apply bindT_mono; [|trivial]. intros a. apply mapResult_mono. intros c r'.
    apply bindT_mono; [trivial|]. intros rec r''. apply typeofExps_mono.
Qed.

End Monotone.

Lemma typeofExp_step {host : Host} (fuel : nat) :
  extends (typeofExp fuel) (typeofExp (S fuel)).
Proof.
  induction fuel as [|fuel IH]; intros x tenv p r; [discriminate|].
  destruct x as [e|q].
  - pose proof (rules_mono (typeofExp fuel) (typeofExp (S fuel)) IH e tenv p r) as Hrule.
    destruct e; trivial; exact Hrule.
  - change (typeofExps (typeofExp fuel) (exps q) tenv p = Some r ->
            typeofExps (typeofExp (S fuel)) (exps q) tenv p = Some r).
    apply typeofExps_mono, IH.
Qed.

Lemma typeofExp_more_fuel {host : Host} (fuel extra : nat) :
  extends (typeofExp fuel) (typeofExp (extra + fuel)).
Proof.
  induction extra as [|extra IH]; intros x tenv p r H; [exact H|].
  apply (typeofExp_step (extra + fuel)), IH, H.
Qed.

(** X30: the typer terminates and its result does not depend on the
    budget: every expression or program has one result, which the
    typer returns under every budget above its size. *)
Theorem typeofExp_total {host : Host} (x : Parsed) (tenv : TEnv) (p : Program) :
  exists r, forall fuel, sizeParsed x < fuel -> typeofExp fuel x tenv p = Some r.
Proof.
  destruct (@typeofExp_returns host (S (sizeParsed x)) x tenv p (Nat.lt_succ_diag_r _))
    as [r Hr].
  exists r. intros fuel Hfuel.
  replace fuel with ((fuel - S (sizeParsed x)) + S (sizeParsed x)) by lia.
  apply typeofExp_more_fuel, Hr.
Qed.
